(** * Menu scraper: line segmentation, crawl loop and crawlability score

    A shallow embedding of [extract_listings.py].  Text the program looks
    into character by character (page text, lines, names, descriptions,
    prices, the robots file) is a Python [str], modelled as the list of its
    code points; [txt] writes such a text from a literal.  Addresses, tag
    names, class names, dictionary keys and the fixed messages are only
    compared or passed on and stay [string]s.  The character tables are
    those of Unicode 14.0, which Python 3.11 carries.  The calls to
    [st.write], [st.warning] and [st.error] only display text and are left
    out. *)

From Stdlib Require Import ZArith NArith Ascii String List Lia.
From stdpp Require Import base option list strings gmap.
Import ListNotations.
Local Open Scope string_scope.
Local Open Scope list_scope.
#[local] Set Warnings "-register-all".

(** ** Characters and strings *)

Module Text.

(** A Python [str]: its code points. *)
Abbreviation str := (list N).

(** The code point of an ASCII character. *)
Definition ch (a : ascii) : N := N_of_ascii a.

(** The code points a sequence of UTF-8 bytes stands for. *)
Fixpoint utf8 (bytes : list N) : str :=
  match bytes with
  | [] => []
  | b1 :: rest1 =>
      if (b1 <? 192)%N then b1 :: utf8 rest1
      else
        match rest1 with
        | [] => [b1]
        | b2 :: rest2 =>
            if (b1 <? 224)%N
            then ((b1 - 192) * 64 + (b2 - 128))%N :: utf8 rest2
            else
              match rest2 with
              | [] => [b1; b2]
              | b3 :: rest3 =>
                  if (b1 <? 240)%N
                  then ((b1 - 224) * 4096 + (b2 - 128) * 64 + (b3 - 128))%N
                       :: utf8 rest3
                  else
                    match rest3 with
                    | [] => [b1; b2; b3]
                    | b4 :: rest4 =>
                        ((b1 - 240) * 262144 + (b2 - 128) * 4096
                         + (b3 - 128) * 64 + (b4 - 128))%N :: utf8 rest4
                    end
              end
        end
  end.

(** The text a literal stands for. *)
Definition txt (s : string) : str :=
  utf8 (map N_of_ascii (list_ascii_of_string s)).

Definition in_ranges (ranges : list (N * N)) (c : N) : bool :=
  existsb (fun r : N * N => (r.1 <=? c)%N && (c <=? r.2)%N) ranges.

Local Open Scope N_scope.

(** White space, as [str.isspace], [str.strip] and [\s] take it. *)
Definition space_ranges : list (N * N) :=
  [
   (9, 13); (28, 32); (133, 133); (160, 160); (5760, 5760);
   (8192, 8202); (8232, 8233); (8239, 8239); (8287, 8287); (12288, 12288) ].

(** Line boundaries, as [str.splitlines] takes them. *)
Definition linebreak_ranges : list (N * N) :=
  [
   (10, 13); (28, 30); (133, 133); (8232, 8233) ].

(** The digit zero of every run of ten decimal digits ([str.isdecimal],
    [\d]). *)
Definition digit_zeros : list N :=
  [
   48; 1632; 1776; 1984; 2406; 2534; 2662; 2790;
   2918; 3046; 3174; 3302; 3430; 3558; 3664; 3792;
   3872; 4160; 4240; 6112; 6160; 6470; 6608; 6784;
   6800; 6992; 7088; 7232; 7248; 42528; 43216; 43264;
   43472; 43504; 43600; 44016; 65296; 66720; 68912; 69734;
   69872; 69942; 70096; 70384; 70736; 70864; 71248; 71360;
   71472; 71904; 72016; 72784; 73040; 73120; 92768; 92864;
   93008; 120782; 120792; 120802; 120812; 120822; 123200; 123632;
   125264; 130032 ].

(** The lower-case mapping of single characters, in runs
    [(first, last, stride, image of first)]: every [stride]-th character
    from [first] to [last] maps to the image of [first] shifted alike. *)
Definition lower_runs : list (N * N * N * N) :=
  [
   (65, 90, 1, 97); (192, 214, 1, 224); (216, 222, 1, 248);
   (256, 302, 2, 257); (304, 304, 1, 105); (306, 310, 2, 307);
   (313, 327, 2, 314); (330, 374, 2, 331); (376, 376, 1, 255);
   (377, 381, 2, 378); (385, 385, 1, 595); (386, 388, 2, 387);
   (390, 390, 1, 596); (391, 391, 1, 392); (393, 394, 1, 598);
   (395, 395, 1, 396); (398, 398, 1, 477); (399, 399, 1, 601);
   (400, 400, 1, 603); (401, 401, 1, 402); (403, 403, 1, 608);
   (404, 404, 1, 611); (406, 406, 1, 617); (407, 407, 1, 616);
   (408, 408, 1, 409); (412, 412, 1, 623); (413, 413, 1, 626);
   (415, 415, 1, 629); (416, 420, 2, 417); (422, 422, 1, 640);
   (423, 423, 1, 424); (425, 425, 1, 643); (428, 428, 1, 429);
   (430, 430, 1, 648); (431, 431, 1, 432); (433, 434, 1, 650);
   (435, 437, 2, 436); (439, 439, 1, 658); (440, 440, 1, 441);
   (444, 444, 1, 445); (452, 452, 1, 454); (453, 453, 1, 454);
   (455, 455, 1, 457); (456, 456, 1, 457); (458, 458, 1, 460);
   (459, 475, 2, 460); (478, 494, 2, 479); (497, 497, 1, 499);
   (498, 500, 2, 499); (502, 502, 1, 405); (503, 503, 1, 447);
   (504, 542, 2, 505); (544, 544, 1, 414); (546, 562, 2, 547);
   (570, 570, 1, 11365); (571, 571, 1, 572); (573, 573, 1, 410);
   (574, 574, 1, 11366); (577, 577, 1, 578); (579, 579, 1, 384);
   (580, 580, 1, 649); (581, 581, 1, 652); (582, 590, 2, 583);
   (880, 882, 2, 881); (886, 886, 1, 887); (895, 895, 1, 1011);
   (902, 902, 1, 940); (904, 906, 1, 941); (908, 908, 1, 972);
   (910, 911, 1, 973); (913, 929, 1, 945); (931, 939, 1, 963);
   (975, 975, 1, 983); (984, 1006, 2, 985); (1012, 1012, 1, 952);
   (1015, 1015, 1, 1016); (1017, 1017, 1, 1010); (1018, 1018, 1, 1019);
   (1021, 1023, 1, 891); (1024, 1039, 1, 1104); (1040, 1071, 1, 1072);
   (1120, 1152, 2, 1121); (1162, 1214, 2, 1163); (1216, 1216, 1, 1231);
   (1217, 1229, 2, 1218); (1232, 1326, 2, 1233); (1329, 1366, 1, 1377);
   (4256, 4293, 1, 11520); (4295, 4295, 1, 11559); (4301, 4301, 1, 11565);
   (5024, 5103, 1, 43888); (5104, 5109, 1, 5112); (7312, 7354, 1, 4304);
   (7357, 7359, 1, 4349); (7680, 7828, 2, 7681); (7838, 7838, 1, 223);
   (7840, 7934, 2, 7841); (7944, 7951, 1, 7936); (7960, 7965, 1, 7952);
   (7976, 7983, 1, 7968); (7992, 7999, 1, 7984); (8008, 8013, 1, 8000);
   (8025, 8031, 2, 8017); (8040, 8047, 1, 8032); (8072, 8079, 1, 8064);
   (8088, 8095, 1, 8080); (8104, 8111, 1, 8096); (8120, 8121, 1, 8112);
   (8122, 8123, 1, 8048); (8124, 8124, 1, 8115); (8136, 8139, 1, 8050);
   (8140, 8140, 1, 8131); (8152, 8153, 1, 8144); (8154, 8155, 1, 8054);
   (8168, 8169, 1, 8160); (8170, 8171, 1, 8058); (8172, 8172, 1, 8165);
   (8184, 8185, 1, 8056); (8186, 8187, 1, 8060); (8188, 8188, 1, 8179);
   (8486, 8486, 1, 969); (8490, 8490, 1, 107); (8491, 8491, 1, 229);
   (8498, 8498, 1, 8526); (8544, 8559, 1, 8560); (8579, 8579, 1, 8580);
   (9398, 9423, 1, 9424); (11264, 11311, 1, 11312); (11360, 11360, 1, 11361);
   (11362, 11362, 1, 619); (11363, 11363, 1, 7549); (11364, 11364, 1, 637);
   (11367, 11371, 2, 11368); (11373, 11373, 1, 593); (11374, 11374, 1, 625);
   (11375, 11375, 1, 592); (11376, 11376, 1, 594); (11378, 11378, 1, 11379);
   (11381, 11381, 1, 11382); (11390, 11391, 1, 575); (11392, 11490, 2, 11393);
   (11499, 11501, 2, 11500); (11506, 11506, 1, 11507); (42560, 42604, 2, 42561);
   (42624, 42650, 2, 42625); (42786, 42798, 2, 42787); (42802, 42862, 2, 42803);
   (42873, 42875, 2, 42874); (42877, 42877, 1, 7545); (42878, 42886, 2, 42879);
   (42891, 42891, 1, 42892); (42893, 42893, 1, 613); (42896, 42898, 2, 42897);
   (42902, 42920, 2, 42903); (42922, 42922, 1, 614); (42923, 42923, 1, 604);
   (42924, 42924, 1, 609); (42925, 42925, 1, 620); (42926, 42926, 1, 618);
   (42928, 42928, 1, 670); (42929, 42929, 1, 647); (42930, 42930, 1, 669);
   (42931, 42931, 1, 43859); (42932, 42946, 2, 42933); (42948, 42948, 1, 42900);
   (42949, 42949, 1, 642); (42950, 42950, 1, 7566); (42951, 42953, 2, 42952);
   (42960, 42960, 1, 42961); (42966, 42968, 2, 42967); (42997, 42997, 1, 42998);
   (65313, 65338, 1, 65345); (66560, 66599, 1, 66600); (66736, 66771, 1, 66776);
   (66928, 66938, 1, 66967); (66940, 66954, 1, 66979); (66956, 66962, 1, 66995);
   (66964, 66965, 1, 67003); (68736, 68786, 1, 68800); (71840, 71871, 1, 71872);
   (93760, 93791, 1, 93792); (125184, 125217, 1, 125218) ].

(** Characters the end-of-word test for capital sigma skips. *)
Definition case_ignorable_ranges : list (N * N) :=
  [
   (39, 39); (46, 46); (58, 58); (94, 94); (96, 96); (168, 168);
   (173, 173); (175, 175); (180, 180); (183, 184); (688, 879); (884, 885);
   (890, 890); (900, 901); (903, 903); (1155, 1161); (1369, 1369); (1375, 1375);
   (1425, 1469); (1471, 1471); (1473, 1474); (1476, 1477); (1479, 1479); (1524, 1524);
   (1536, 1541); (1552, 1562); (1564, 1564); (1600, 1600); (1611, 1631); (1648, 1648);
   (1750, 1757); (1759, 1768); (1770, 1773); (1807, 1807); (1809, 1809); (1840, 1866);
   (1958, 1968); (2027, 2037); (2042, 2042); (2045, 2045); (2070, 2093); (2137, 2139);
   (2184, 2184); (2192, 2193); (2200, 2207); (2249, 2306); (2362, 2362); (2364, 2364);
   (2369, 2376); (2381, 2381); (2385, 2391); (2402, 2403); (2417, 2417); (2433, 2433);
   (2492, 2492); (2497, 2500); (2509, 2509); (2530, 2531); (2558, 2558); (2561, 2562);
   (2620, 2620); (2625, 2626); (2631, 2632); (2635, 2637); (2641, 2641); (2672, 2673);
   (2677, 2677); (2689, 2690); (2748, 2748); (2753, 2757); (2759, 2760); (2765, 2765);
   (2786, 2787); (2810, 2815); (2817, 2817); (2876, 2876); (2879, 2879); (2881, 2884);
   (2893, 2893); (2901, 2902); (2914, 2915); (2946, 2946); (3008, 3008); (3021, 3021);
   (3072, 3072); (3076, 3076); (3132, 3132); (3134, 3136); (3142, 3144); (3146, 3149);
   (3157, 3158); (3170, 3171); (3201, 3201); (3260, 3260); (3263, 3263); (3270, 3270);
   (3276, 3277); (3298, 3299); (3328, 3329); (3387, 3388); (3393, 3396); (3405, 3405);
   (3426, 3427); (3457, 3457); (3530, 3530); (3538, 3540); (3542, 3542); (3633, 3633);
   (3636, 3642); (3654, 3662); (3761, 3761); (3764, 3772); (3782, 3782); (3784, 3789);
   (3864, 3865); (3893, 3893); (3895, 3895); (3897, 3897); (3953, 3966); (3968, 3972);
   (3974, 3975); (3981, 3991); (3993, 4028); (4038, 4038); (4141, 4144); (4146, 4151);
   (4153, 4154); (4157, 4158); (4184, 4185); (4190, 4192); (4209, 4212); (4226, 4226);
   (4229, 4230); (4237, 4237); (4253, 4253); (4348, 4348); (4957, 4959); (5906, 5908);
   (5938, 5939); (5970, 5971); (6002, 6003); (6068, 6069); (6071, 6077); (6086, 6086);
   (6089, 6099); (6103, 6103); (6109, 6109); (6155, 6159); (6211, 6211); (6277, 6278);
   (6313, 6313); (6432, 6434); (6439, 6440); (6450, 6450); (6457, 6459); (6679, 6680);
   (6683, 6683); (6742, 6742); (6744, 6750); (6752, 6752); (6754, 6754); (6757, 6764);
   (6771, 6780); (6783, 6783); (6823, 6823); (6832, 6862); (6912, 6915); (6964, 6964);
   (6966, 6970); (6972, 6972); (6978, 6978); (7019, 7027); (7040, 7041); (7074, 7077);
   (7080, 7081); (7083, 7085); (7142, 7142); (7144, 7145); (7149, 7149); (7151, 7153);
   (7212, 7219); (7222, 7223); (7288, 7293); (7376, 7378); (7380, 7392); (7394, 7400);
   (7405, 7405); (7412, 7412); (7416, 7417); (7468, 7530); (7544, 7544); (7579, 7679);
   (8125, 8125); (8127, 8129); (8141, 8143); (8157, 8159); (8173, 8175); (8189, 8190);
   (8203, 8207); (8216, 8217); (8228, 8228); (8231, 8231); (8234, 8238); (8288, 8292);
   (8294, 8303); (8305, 8305); (8319, 8319); (8336, 8348); (8400, 8432); (11388, 11389);
   (11503, 11505); (11631, 11631); (11647, 11647); (11744, 11775); (11823, 11823); (12293, 12293);
   (12330, 12333); (12337, 12341); (12347, 12347); (12441, 12446); (12540, 12542); (40981, 40981);
   (42232, 42237); (42508, 42508); (42607, 42610); (42612, 42621); (42623, 42623); (42652, 42655);
   (42736, 42737); (42752, 42785); (42864, 42864); (42888, 42890); (42994, 42996); (43000, 43001);
   (43010, 43010); (43014, 43014); (43019, 43019); (43045, 43046); (43052, 43052); (43204, 43205);
   (43232, 43249); (43263, 43263); (43302, 43309); (43335, 43345); (43392, 43394); (43443, 43443);
   (43446, 43449); (43452, 43453); (43471, 43471); (43493, 43494); (43561, 43566); (43569, 43570);
   (43573, 43574); (43587, 43587); (43596, 43596); (43632, 43632); (43644, 43644); (43696, 43696);
   (43698, 43700); (43703, 43704); (43710, 43711); (43713, 43713); (43741, 43741); (43756, 43757);
   (43763, 43764); (43766, 43766); (43867, 43871); (43881, 43883); (44005, 44005); (44008, 44008);
   (44013, 44013); (64286, 64286); (64434, 64450); (65024, 65039); (65043, 65043); (65056, 65071);
   (65106, 65106); (65109, 65109); (65279, 65279); (65287, 65287); (65294, 65294); (65306, 65306);
   (65342, 65342); (65344, 65344); (65392, 65392); (65438, 65439); (65507, 65507); (65529, 65531);
   (66045, 66045); (66272, 66272); (66422, 66426); (67456, 67461); (67463, 67504); (67506, 67514);
   (68097, 68099); (68101, 68102); (68108, 68111); (68152, 68154); (68159, 68159); (68325, 68326);
   (68900, 68903); (69291, 69292); (69446, 69456); (69506, 69509); (69633, 69633); (69688, 69702);
   (69744, 69744); (69747, 69748); (69759, 69761); (69811, 69814); (69817, 69818); (69821, 69821);
   (69826, 69826); (69837, 69837); (69888, 69890); (69927, 69931); (69933, 69940); (70003, 70003);
   (70016, 70017); (70070, 70078); (70089, 70092); (70095, 70095); (70191, 70193); (70196, 70196);
   (70198, 70199); (70206, 70206); (70367, 70367); (70371, 70378); (70400, 70401); (70459, 70460);
   (70464, 70464); (70502, 70508); (70512, 70516); (70712, 70719); (70722, 70724); (70726, 70726);
   (70750, 70750); (70835, 70840); (70842, 70842); (70847, 70848); (70850, 70851); (71090, 71093);
   (71100, 71101); (71103, 71104); (71132, 71133); (71219, 71226); (71229, 71229); (71231, 71232);
   (71339, 71339); (71341, 71341); (71344, 71349); (71351, 71351); (71453, 71455); (71458, 71461);
   (71463, 71467); (71727, 71735); (71737, 71738); (71995, 71996); (71998, 71998); (72003, 72003);
   (72148, 72151); (72154, 72155); (72160, 72160); (72193, 72202); (72243, 72248); (72251, 72254);
   (72263, 72263); (72273, 72278); (72281, 72283); (72330, 72342); (72344, 72345); (72752, 72758);
   (72760, 72765); (72767, 72767); (72850, 72871); (72874, 72880); (72882, 72883); (72885, 72886);
   (73009, 73014); (73018, 73018); (73020, 73021); (73023, 73029); (73031, 73031); (73104, 73105);
   (73109, 73109); (73111, 73111); (73459, 73460); (78896, 78904); (92912, 92916); (92976, 92982);
   (92992, 92995); (94031, 94031); (94095, 94111); (94176, 94177); (94179, 94180); (110576, 110579);
   (110581, 110587); (110589, 110590); (113821, 113822); (113824, 113827); (118528, 118573); (118576, 118598);
   (119143, 119145); (119155, 119170); (119173, 119179); (119210, 119213); (119362, 119364); (121344, 121398);
   (121403, 121452); (121461, 121461); (121476, 121476); (121499, 121503); (121505, 121519); (122880, 122886);
   (122888, 122904); (122907, 122913); (122915, 122916); (122918, 122922); (123184, 123197); (123566, 123566);
   (123628, 123631); (125136, 125142); (125252, 125259); (127995, 127999); (917505, 917505); (917536, 917631);
   (917760, 917999) ].

(** Cased characters among those that are not skipped. *)
Definition cased_ranges : list (N * N) :=
  [
   (65, 90); (97, 122); (170, 170); (181, 181); (186, 186); (192, 214);
   (216, 246); (248, 442); (444, 447); (452, 659); (661, 687); (880, 883);
   (886, 887); (891, 893); (895, 895); (902, 902); (904, 906); (908, 908);
   (910, 929); (931, 1013); (1015, 1153); (1162, 1327); (1329, 1366); (1376, 1416);
   (4256, 4293); (4295, 4295); (4301, 4301); (4304, 4346); (4349, 4351); (5024, 5109);
   (5112, 5117); (7296, 7304); (7312, 7354); (7357, 7359); (7424, 7467); (7531, 7543);
   (7545, 7578); (7680, 7957); (7960, 7965); (7968, 8005); (8008, 8013); (8016, 8023);
   (8025, 8025); (8027, 8027); (8029, 8029); (8031, 8061); (8064, 8116); (8118, 8124);
   (8126, 8126); (8130, 8132); (8134, 8140); (8144, 8147); (8150, 8155); (8160, 8172);
   (8178, 8180); (8182, 8188); (8450, 8450); (8455, 8455); (8458, 8467); (8469, 8469);
   (8473, 8477); (8484, 8484); (8486, 8486); (8488, 8488); (8490, 8493); (8495, 8500);
   (8505, 8505); (8508, 8511); (8517, 8521); (8526, 8526); (8544, 8575); (8579, 8580);
   (9398, 9449); (11264, 11387); (11390, 11492); (11499, 11502); (11506, 11507); (11520, 11557);
   (11559, 11559); (11565, 11565); (42560, 42605); (42624, 42651); (42786, 42863); (42865, 42887);
   (42891, 42894); (42896, 42954); (42960, 42961); (42963, 42963); (42965, 42969); (42997, 42998);
   (43002, 43002); (43824, 43866); (43872, 43880); (43888, 43967); (64256, 64262); (64275, 64279);
   (65313, 65338); (65345, 65370); (66560, 66639); (66736, 66771); (66776, 66811); (66928, 66938);
   (66940, 66954); (66956, 66962); (66964, 66965); (66967, 66977); (66979, 66993); (66995, 67001);
   (67003, 67004); (68736, 68786); (68800, 68850); (71840, 71903); (93760, 93823); (119808, 119892);
   (119894, 119964); (119966, 119967); (119970, 119970); (119973, 119974); (119977, 119980); (119982, 119993);
   (119995, 119995); (119997, 120003); (120005, 120069); (120071, 120074); (120077, 120084); (120086, 120092);
   (120094, 120121); (120123, 120126); (120128, 120132); (120134, 120134); (120138, 120144); (120146, 120485);
   (120488, 120512); (120514, 120538); (120540, 120570); (120572, 120596); (120598, 120628); (120630, 120654);
   (120656, 120686); (120688, 120712); (120714, 120744); (120746, 120770); (120772, 120779); (122624, 122633);
   (122635, 122654); (125184, 125251); (127280, 127305); (127312, 127337); (127344, 127369) ].

(** Lower-case characters that [re.IGNORECASE] takes for one another beyond
    the lower-case mapping. *)
Definition extra_cases : list (N * list N) :=
  [
   (105, [305]); (115, [383]); (181, [956]); (305, [105]);
   (383, [115]); (837, [953; 8126]); (912, [8147]); (944, [8163]);
   (946, [976]); (949, [1013]); (952, [977]); (953, [837; 8126]);
   (954, [1008]); (956, [181]); (960, [982]); (961, [1009]);
   (962, [963]); (963, [962]); (966, [981]); (976, [946]);
   (977, [952]); (981, [966]); (982, [960]); (1008, [954]);
   (1009, [961]); (1013, [949]); (1074, [7296]); (1076, [7297]);
   (1086, [7298]); (1089, [7299]); (1090, [7300; 7301]); (1098, [7302]);
   (1123, [7303]); (7296, [1074]); (7297, [1076]); (7298, [1086]);
   (7299, [1089]); (7300, [1090; 7301]); (7301, [1090; 7300]); (7302, [1098]);
   (7303, [1123]); (7304, [42571]); (7777, [7835]); (7835, [7777]);
   (8126, [837; 953]); (8147, [912]); (8163, [944]); (42571, [7304]);
   (64261, [64262]); (64262, [64261]) ].
Local Close Scope N_scope.

(** [\s], [str.isspace]. *)
Definition is_space (c : N) : bool := in_ranges space_ranges c.

(** A line boundary of [str.splitlines]. *)
Definition is_linebreak (c : N) : bool := in_ranges linebreak_ranges c.

(** [\d], [str.isdecimal]. *)
Definition is_digit (c : N) : bool :=
  existsb (fun zero => (zero <=? c)%N && (c <=? zero + 9)%N) digit_zeros.

Definition in_run (run : N * N * N * N) (c : N) : bool :=
  let '(first, last, stride, _) := run in
  (first <=? c)%N && (c <=? last)%N && ((c - first) mod stride =? 0)%N.

(** The lower-case mapping of one character to one character, as
    [re.IGNORECASE] uses it. *)
Definition lower_char (c : N) : N :=
  match List.find (fun run => in_run run c) lower_runs with
  | Some (first, _, _, image) => (image + (c - first))%N
  | None => c
  end.

Definition is_case_ignorable (c : N) : bool := in_ranges case_ignorable_ranges c.
Definition is_cased (c : N) : bool := in_ranges cased_ranges c.

Fixpoint skip_ignorable (s : str) : str :=
  match s with
  | c :: s' => if is_case_ignorable c then skip_ignorable s' else s
  | [] => []
  end.

(** Whether a capital sigma ends a word: a cased character before it and
    none after it, characters that are skipped apart.  [before] is the text
    before the sigma, nearest character first. *)
Definition final_sigma (before after : str) : bool :=
  match skip_ignorable before with
  | c :: _ => is_cased c
  | [] => false
  end
  && match skip_ignorable after with
     | c :: _ => negb (is_cased c)
     | [] => true
     end.

(** What [str.lower] puts for the character [c] between [before] and
    [after]. *)
Definition lower_at (before after : str) (c : N) : str :=
  if (c =? 931)%N then [if final_sigma before after then 962%N else 963%N]
  else if (c =? 304)%N then [105%N; 775%N]
  else [lower_char c].

Fixpoint lower_from (before : str) (s : str) : str :=
  match s with
  | [] => []
  | c :: s' => lower_at before s' c ++ lower_from (c :: before) s'
  end.

(** [str.lower]. *)
Definition lower (s : str) : str := lower_from [] s.

Fixpoint lstrip (s : str) : str :=
  match s with
  | c :: s' => if is_space c then lstrip s' else s
  | [] => []
  end.

(** [str.strip] with no argument. *)
Definition strip (s : str) : str := rev (lstrip (rev (lstrip s))).

(** [str.splitlines]: [cur] holds the characters of the line being read, in
    reverse; a carriage return followed by a line feed is one boundary; a
    boundary at the very end opens no further line. *)
Fixpoint splitlines_from (cur : str) (s : str) : list str :=
  match s with
  | [] => match cur with [] => [] | _ => [rev cur] end
  | c :: s' =>
      if is_linebreak c then
        rev cur ::
        match s' with
        | d :: s'' =>
            if (c =? 13)%N && (d =? 10)%N
            then splitlines_from [] s''
            else splitlines_from [] s'
        | [] => splitlines_from [] s'
        end
      else splitlines_from (c :: cur) s'
  end.

Definition splitlines (s : str) : list str := splitlines_from [] s.

(** [sep.join(parts)]. *)
Fixpoint join (sep : str) (parts : list str) : str :=
  match parts with
  | [] => []
  | [p] => p
  | p :: ps => p ++ sep ++ join sep ps
  end.

(** [s.startswith(prefix)]. *)
Fixpoint startswith (prefix s : str) : bool :=
  match prefix, s with
  | [], _ => true
  | p :: prefix', c :: s' => (p =? c)%N && startswith prefix' s'
  | _ :: _, [] => false
  end.

End Text.

(** ** The fragment of [re] the price patterns use *)

Module Re.
Import Text.

Inductive atom : Type :=
  | Lit (c : N)          (* a literal character *)
  | Digit                (* \d *)
  | Space.               (* \s *)

Inductive regex : Type :=
  | Empty                          (* the empty alternative *)
  | Atom (a : atom)
  | Star (a : atom)                (* greedy a* *)
  | Cat (r1 r2 : regex)
  | Alt (r1 r2 : regex)            (* r1|r2, r1 tried first *)
  | Group (n : nat) (r : regex)    (* the n-th capturing group *)
  | Bol                            (* ^ *)
  | Eol.                           (* $ *)

Definition Plus (a : atom) : regex := Cat (Atom a) (Star a).
Definition Opt (r : regex) : regex := Alt r Empty.

(** A literal word, character by character. *)
Fixpoint Word (w : str) : regex :=
  match w with
  | [] => Empty
  | c :: w' => Cat (Atom (Lit c)) (Word w')
  end.

(** The lower-case characters a lower-case literal stands for under
    [re.IGNORECASE]: itself and its extra cases. *)
Definition cases_of (lo : N) : list N :=
  lo :: match List.find (fun e : N * list N => (e.1 =? lo)%N) extra_cases with
        | Some e => e.2
        | None => []
        end.

(** One character against an atom; [ic] is the IGNORECASE flag: a literal
    then matches the characters whose lower case is one of its cases. *)
Definition atom_match (ic : bool) (a : atom) (c : N) : bool :=
  match a with
  | Lit l =>
      if ic then existsb (N.eqb (lower_char c)) (cases_of (lower_char l))
      else (l =? c)%N
  | Digit => is_digit c
  | Space => is_space c
  end.

(** The groups of a match: group number to captured text. *)
Abbreviation groups := (gmap nat str).

Section Matcher.
Context {A : Type}.
Variable ic : bool.

(** Greedy iteration of one atom with backtracking: the longest run is
    tried first, then shorter ones. *)
Fixpoint star (a : atom) (pos : nat) (s : str)
    (k : nat -> str -> option A) : option A :=
  match s with
  | c :: s' =>
      if atom_match ic a c then
        match star a (S pos) s' k with
        | Some x => Some x
        | None => k pos s
        end
      else k pos s
  | [] => k pos s
  end.

(** Backtracking matcher in continuation-passing style.  [pos] is the
    offset of [s] in the subject, [g] the groups captured so far, and [k]
    the rest of the pattern. *)
Fixpoint run (r : regex) (pos : nat) (s : str) (g : groups)
    (k : nat -> str -> groups -> option A) : option A :=
  match r with
  | Empty => k pos s g
  | Atom a =>
      match s with
      | c :: s' => if atom_match ic a c then k (S pos) s' g else None
      | [] => None
      end
  | Star a => star a pos s (fun pos' s' => k pos' s' g)
  | Cat r1 r2 => run r1 pos s g (fun pos' s' g' => run r2 pos' s' g' k)
  | Alt r1 r2 =>
      match run r1 pos s g k with
      | Some x => Some x
      | None => run r2 pos s g k
      end
  | Group n r1 =>
      run r1 pos s g (fun pos' s' g' =>
        k pos' s' (<[n := take (pos' - pos) s]> g'))
  | Bol => if (pos =? 0)%nat then k pos s g else None
  | Eol =>
      match s with
      | [] => k pos s g
      | [c] => if (c =? 10)%N then k pos s g else None
      | _ => None
      end
  end.
End Matcher.

(** [pattern.match(subject)]: a match starting at offset 0. *)
Definition match_ (ic : bool) (r : regex) (subject : str) : option groups :=
  run ic r 0 subject ∅ (fun _ _ g => Some g).

Fixpoint search_from (ic : bool) (r : regex) (pos : nat) (s : str)
    : option groups :=
  match run ic r pos s ∅ (fun _ _ g => Some g) with
  | Some g => Some g
  | None =>
      match s with
      | [] => None
      | _ :: s' => search_from ic r (S pos) s'
      end
  end.

(** [pattern.search(subject)]: the match at the leftmost offset that has one. *)
Definition search (ic : bool) (r : regex) (subject : str) : option groups :=
  search_from ic r 0 subject.

(** [m.group(n)] of a group that took part in the match. *)
Definition group (m : groups) (n : nat) : str := default [] (m !! n).

(** What a pattern means, without the search order: [derives ic r pos g w s' g']
    says that [r], at offset [pos] with groups [g], can consume the word [w]
    in front of the remaining input [s'] and leave the groups [g']. *)
Fixpoint derives (ic : bool) (r : regex) (pos : nat) (g : groups)
    (w s' : str) (g' : groups) : Prop :=
  match r with
  | Empty => w = [] /\ g' = g
  | Atom a => exists c, w = [c] /\ atom_match ic a c = true /\ g' = g
  | Star a => Forall (fun c => atom_match ic a c = true) w /\ g' = g
  | Cat r1 r2 =>
      exists w1 w2 g1,
        w = w1 ++ w2
        /\ derives ic r1 pos g w1 (w2 ++ s') g1
        /\ derives ic r2 (pos + length w1) g1 w2 s' g'
  | Alt r1 r2 => derives ic r1 pos g w s' g' \/ derives ic r2 pos g w s' g'
  | Group n r1 =>
      exists g1,
        derives ic r1 pos g w s' g1
        /\ g' = <[n := w]> g1
  | Bol => pos = 0%nat /\ w = [] /\ g' = g
  | Eol => w = [] /\ g' = g /\ (s' = [] \/ s' = [10%N])
  end.

End Re.

(** ** Item segmentation inside one category panel *)

Module Segmenter.
Import Text Re.

(** A sequence of sub-patterns. *)
Fixpoint Seq (rs : list regex) : regex :=
  match rs with
  | [] => Empty
  | [r] => r
  | r :: rs' => Cat r (Seq rs')
  end.

(** The currency marker [L\.?E\.?]. *)
Definition currency : regex :=
  Seq [Atom (Lit (ch "L")); Opt (Atom (Lit (ch ".")));
       Atom (Lit (ch "E")); Opt (Atom (Lit (ch ".")))].

(** [re.compile(r"(Price\s*:\s*|)(\d+)\s*(L\.?E\.?)", re.IGNORECASE)] *)
Definition price_pattern : regex :=
  Seq [ Group 1 (Alt (Seq [Word (txt "Price"); Star Space;
                           Atom (Lit (ch ":")); Star Space])
                     Empty);
        Group 2 (Plus Digit);
        Star Space;
        Group 3 currency ].

(** [re.compile(r"^(\d+)\s*(L\.?E\.?)\.?$", re.IGNORECASE)] *)
Definition price_only_pattern : regex :=
  Seq [ Bol; Group 1 (Plus Digit); Star Space; Group 2 currency;
        Opt (Atom (Lit (ch "."))); Eol ].

(** The pending item and the finished items are Python dicts with the keys
    ["name"], ["description"] and ["price"]. *)
Abbreviation dict := (gmap string str).

(** The price a line carries, if it is a price line:
    [price_match.group(2) if price_match else price_only_match.group(1)]
    under the guard [price_match or price_only_match]. *)
Definition line_price (line : str) : option str :=
  match search true price_pattern line with
  | Some price_match => Some (group price_match 2)
  | None =>
      match match_ true price_only_pattern line with
      | Some price_only_match => Some (group price_only_match 1)
      | None => None
      end
  end.

Definition noise_tokens : list str := [txt "price"; txt "l.e"; txt "le"].

(** One iteration of the [while] loop: the pending item and the items
    appended so far, before and after the line. *)
Definition step (st : dict * list dict) (line : str) : dict * list dict :=
  let '(current_item, items) := st in
  match line_price line with
  | Some price =>
      if bool_decide (current_item = ∅) then (current_item, items)
      else (∅, items ++ [<["price" := price ++ txt " L.E"]> current_item])
  | None =>
      if bool_decide (is_Some (current_item !! "name"))
         && negb (bool_decide (is_Some (current_item !! "price")))
      then (<["description" :=
                default [] (current_item !! "description") ++ txt " " ++ line]>
              current_item, items)
      else if negb (bool_decide (lower line ∈ noise_tokens))
      then ({["name" := line]}, items)
      else (current_item, items)
  end.

(** [while i < len(lines)]: every branch of the body ends in [i += 1]; [fuel]
    bounds the number of iterations. *)
Fixpoint while_lines (lines : list str) (fuel i : nat)
    (st : dict * list dict) : dict * list dict :=
  match fuel with
  | O => st
  | S fuel' =>
      if (i <? length lines)%nat then
        match lines !! i with
        | Some line => while_lines lines fuel' (i + 1) (step st line)
        | None => st
        end
      else st
  end.

(** The whole loop, from [i = 0] with an empty pending item and no items;
    [len(lines)] iterations are all it can make. *)
Definition run_lines (lines : list str) : dict * list dict :=
  while_lines lines (length lines) 0 (∅, []).

(** The loop followed by the flush of a pending item that has a price. *)
Definition segment (lines : list str) : list dict :=
  let '(current_item, items) := run_lines lines in
  if negb (bool_decide (current_item = ∅))
     && bool_decide (is_Some (current_item !! "price"))
  then items ++ [current_item]
  else items.

Definition is_price_line (line : str) : bool :=
  match line_price line with Some _ => true | None => false end.

(** A finished item: it has a non-empty name and a non-empty price. *)
Definition complete (it : dict) : Prop :=
  exists n p,
    it !! "name" = Some n /\ n <> [] /\ it !! "price" = Some p /\ p <> [].

(** A pending item between two lines: empty, or named and not yet priced. *)
Definition pending (current_item : dict) : Prop :=
  current_item = ∅
  \/ ((exists n, current_item !! "name" = Some n /\ n <> [])
      /\ current_item !! "price" = None).

(** A row of the result: category, item name, description, price. *)
Record row : Type := Row {
  category : str;
  item_name : str;
  description : str;
  price : str
}.

Definition row_of (category_name : str) (it : dict) : row :=
  Row category_name
      (default [] (it !! "name"))
      (default [] (it !! "description"))
      (default [] (it !! "price")).

End Segmenter.

(** ** Parsed pages *)

Module Soup.
Import Text.

(** A parsed page as the program reads it: tags with their name, the values
    of their [class] attribute, their [href] attribute if they have one and
    their contents, and strings of text.  The document itself is a tag. *)
Inductive node : Type :=
  | Tag (name : string) (class_ : list string) (href : option string)
        (contents : list node)
  | NavigableString (text : str).

(** Everything below a node, in document order. *)
Fixpoint descendants (n : node) : list node :=
  match n with
  | Tag _ _ _ contents =>
      (fix below (l : list node) : list node :=
         match l with
         | [] => []
         | c :: l' => c :: descendants c ++ below l'
         end) contents
  | NavigableString _ => []
  end.

(** A tag whose name is one of [names] and, when [cls] is given, which
    carries that class. *)
Definition tag_matches (names : list string) (cls : option string)
    (n : node) : bool :=
  match n with
  | Tag name class_ _ _ =>
      bool_decide (name ∈ names)
      && match cls with
         | Some c => bool_decide (c ∈ class_)
         | None => true
         end
  | NavigableString _ => false
  end.

(** [n.find_all(names, class_=cls)] *)
Definition find_all (n : node) (names : list string) (cls : option string)
    : list node :=
  List.filter (tag_matches names cls) (descendants n).

(** [n.find(names, class_=cls)]: the first one, or [None]. *)
Definition find (n : node) (names : list string) (cls : option string)
    : option node :=
  head (find_all n names cls).

(** The number of elements called [name] below a node, counted along the
    tree. *)
Fixpoint count_elements (name : string) (n : node) : nat :=
  match n with
  | Tag _ _ _ contents =>
      (fix below (l : list node) : nat :=
         match l with
         | [] => 0
         | c :: l' =>
             (match c with
              | Tag nm _ _ _ => if String.eqb nm name then 1 else 0
              | NavigableString _ => 0
              end + count_elements name c + below l')%nat
         end) contents
  | NavigableString _ => 0%nat
  end.

(** [e] is an element called [name] somewhere below [n]. *)
Definition element_below (n : node) (name : string) (e : node) : Prop :=
  In e (descendants n)
  /\ exists class_ href contents, e = Tag name class_ href contents.

Definition string_of (n : node) : option str :=
  match n with
  | NavigableString text => Some text
  | Tag _ _ _ _ => None
  end.

(** [n.get_text(separator=sep)]: the strings below [n], joined. *)
Definition get_text (sep : str) (n : node) : str :=
  Text.join sep (omap string_of (descendants n)).

End Soup.

(** ** Category extraction and the crawl over the pages *)

Module Crawl.
Import Text Soup Segmenter.

(** [[line.strip() for line in text.splitlines() if line.strip()]] *)
Definition text_lines (text : str) : list str :=
  map strip
      (List.filter (fun line => negb (bool_decide (strip line = [])))
                   (splitlines text)).

(** The rows one category panel contributes: none when it has no body. *)
Definition panel_rows (panel : node) : list row :=
  let heading := find panel ["div"] (Some "vc_tta-panel-heading") in
  let title_span :=
    match heading with
    | Some h => find h ["span"] (Some "vc_tta-title-text")
    | None => None
    end in
  let category_name :=
    match title_span with
    | Some t => strip (get_text [] t)
    | None => txt "Unnamed Category"
    end in
  match find panel ["div"] (Some "vc_tta-panel-body") with
  | None => []
  | Some body =>
      let lines := text_lines (get_text [10%N] body) in
      map (row_of category_name) (segment lines)
  end.

(** The rows of all panels of a page, in document order. *)
Definition page_rows (soup : node) : list row :=
  flat_map panel_rows (find_all soup ["div"] (Some "vc_tta-panel")).

(** The destination of the pagination link, when the page has an [a] tag of
    class [next] with a non-empty [href]. *)
Definition next_page_url (soup : node) : option string :=
  match find soup ["a"] (Some "next") with
  | Some (Tag _ _ (Some href) _) =>
      if String.eqb href "" then None else Some href
  | _ => None
  end.

Inductive exn : Type :=
  | RequestException      (* requests: connection error, timeout, bad URL *)
  | WebDriverException    (* selenium: the browser session failed *)
  | RecursionError        (* the interpreter's recursion limit is exceeded *)
  | OtherException.

Inductive outcome (A : Type) : Type :=
  | Ok (a : A)
  | Raise (e : exn).
Arguments Ok {A} a.
Arguments Raise {A} e.

Record response : Type := Response {
  status_code : Z;
  content : str
}.

(** What the crawl asks of its surroundings.  [world] is the state of the
    network and of the browser; each call may change it. *)
Record Env : Type := {
  world : Type;
  (** [session.get(url, timeout=10)] *)
  session_get : string -> world -> outcome response * world;
  (** the Chrome session: start, [driver.get(url)], wait, [page_source],
      [driver.quit()] *)
  chrome_page_source : string -> world -> outcome str * world;
  (** [BeautifulSoup(markup, "html.parser")] *)
  BeautifulSoup : str -> node
}.

Section WithEnv.
Variable E : Env.
Variable use_selenium : bool.

(** [get_soup]: the parsed page, [None] after a failed plain fetch.  Only
    the plain fetch is inside a [try]; it catches [RequestException]. *)
Definition get_soup (url : string) (w : world E)
    : outcome (option node) * world E :=
  if use_selenium then
    match chrome_page_source E url w with
    | (Ok html, w') => (Ok (Some (BeautifulSoup E html)), w')
    | (Raise e, w') => (Raise e, w')
    end
  else
    match session_get E url w with
    | (Ok resp, w') =>
        if negb (status_code resp =? 200)%Z then (Ok None, w')
        else (Ok (Some (BeautifulSoup E (content resp))), w')
    | (Raise RequestException, w') => (Ok None, w')
    | (Raise e, w') => (Raise e, w')
    end.

(** How a crawl ends: it returns, or an exception leaves it.  [rows] is the
    list the crawl appends to. *)
Inductive result : Type :=
  | Returned (rows : list row) (w : world E)
  | Raised (e : exn) (rows : list row) (w : world E).

(** [scrape_page]: one call per page, the next page in a nested call.
    [depth] is the number of nested calls the interpreter's recursion limit
    still allows; the call beyond it raises [RecursionError]. *)
Fixpoint scrape_page (depth : nat) (url : string) (rows : list row)
    (w : world E) : result :=
  match depth with
  | O => Raised RecursionError rows w
  | S depth' =>
      match get_soup url w with
      | (Raise e, w') => Raised e rows w'
      | (Ok None, w') => Returned rows w'
      | (Ok (Some soup), w') =>
          let rows' := rows ++ page_rows soup in
          match next_page_url soup with
          | Some next_url => scrape_page depth' next_url rows' w'
          | None => Returned rows' w'
          end
      end
  end.

(** [scrape_menu]: the crawl from [base_url] with an empty list of rows. *)
Definition scrape_menu (depth : nat) (base_url : string) (w : world E)
    : result :=
  scrape_page depth base_url [] w.

(** The plain fetch of [url] fails: a status other than 200, or a
    [RequestException]. *)
Definition fetch_fails (url : string) (w w' : world E) : Prop :=
  (exists resp, session_get E url w = (Ok resp, w')
                /\ status_code resp <> 200%Z)
  \/ session_get E url w = (Raise RequestException, w').

(** [pages_fetched w url soups w' url']: from [url] in world [w] the pages
    [soups] are fetched one after the other, each linking to the next,
    and the last one links to [url'], to be fetched in world [w']. *)
Inductive pages_fetched
    : world E -> string -> list node -> world E -> string -> Prop :=
  | fetched_none (w : world E) (url : string) :
      pages_fetched w url [] w url
  | fetched_more (w w1 w2 : world E) (url url1 url2 : string)
        (soup : node) (soups : list node) :
      get_soup url w = (Ok (Some soup), w1) ->
      next_page_url soup = Some url1 ->
      pages_fetched w1 url1 soups w2 url2 ->
      pages_fetched w url (soup :: soups) w2 url2.
End WithEnv.

Arguments Returned {E} rows w.
Arguments Raised {E} e rows w.

(** A site nothing can be fetched from: every request and every browser
    session fails. *)
Definition unreachable_site : Env := {|
  world := unit;
  session_get := fun _ w => (Raise RequestException, w);
  chrome_page_source := fun _ w => (Raise WebDriverException, w);
  BeautifulSoup := fun _ => Tag "[document]" [] None []
|}.

(** A site every address of which serves the document [doc]. *)
Definition static_site (doc : node) : Env := {|
  world := unit;
  session_get := fun _ w => (Ok (Response 200 []), w);
  chrome_page_source := fun _ w => (Ok [], w);
  BeautifulSoup := fun _ => doc
|}.

(** A document with [n] script elements in its head and one paragraph. *)
Definition page_with_scripts (n : nat) : node :=
  Tag "[document]" [] None
    [Tag "html" [] None
       [Tag "head" [] None (repeat (Tag "script" [] None []) n);
        Tag "body" [] None [Tag "p" [] None [NavigableString (txt "Menu")]]]].

End Crawl.

(** ** JavaScript heaviness and the crawlability score *)

Module Analysis.
Import Text Soup.

Definition content_tags : list string := ["div"; "p"; "span"; "table"].

(** [is_javascript_heavy], on the page [BeautifulSoup] parsed. *)
Definition is_javascript_heavy_soup (soup : node) : bool :=
  let scripts := find_all soup ["script"] None in
  if (10 <? length scripts)%nat then true
  else
    match find_all soup content_tags None with
    | [] => true
    | _ :: _ => false
    end.

Definition is_javascript_heavy (E : Crawl.Env) (html_content : str) : bool :=
  is_javascript_heavy_soup (Crawl.BeautifulSoup E html_content).

Definition nonempty {A : Type} (l : list A) : bool :=
  match l with [] => false | _ :: _ => true end.

(** [calculate_crawlability_score] *)
Definition calculate_crawlability_score (has_robots : bool)
    (crawl_delays sitemaps : list str) (js_heavy : bool) : Z :=
  let score := 0%Z in
  let score := if has_robots then (score + 25)%Z else score in
  let score := if nonempty crawl_delays then (score + 15)%Z else score in
  let score := if nonempty sitemaps then (score + 30)%Z else score in
  let score := if negb js_heavy then (score + 30)%Z else score in
  score.

End Analysis.

(** ** The robots file *)

Module Robots.
Import Text Crawl.

(** [s.rstrip('/')] *)
Definition rstrip_slash (s : string) : string :=
  string_of_list_ascii
    (rev ((fix drop_slashes (l : list ascii) : list ascii :=
             match l with
             | c :: l' => if Ascii.eqb c "/" then drop_slashes l' else l
             | [] => []
             end) (rev (list_ascii_of_string s)))).

(** The text before and after the first [sep] of [s], if [s] has one. *)
Fixpoint partition_at (sep : N) (s : str) : option (str * str) :=
  match s with
  | [] => None
  | c :: s' =>
      if (c =? sep)%N then Some ([], s')
      else
        match partition_at sep s' with
        | Some (before, after) => Some (c :: before, after)
        | None => None
        end
  end.

(** [s.split(sep, 1)]: two parts when [s] has a [sep], else [s] alone. *)
Definition split_once (sep : N) (s : str) : list str :=
  match partition_at sep s with
  | Some (before, after) => [before; after]
  | None => [s]
  end.

Inductive error : Type :=
  | Escaped (e : exn)    (* an exception of a fetch the code does not catch *)
  | IndexError.          (* [parts[1]] on a list of one part *)

Inductive try (A : Type) : Type :=
  | Done (a : A)
  | Failed (e : error).
Arguments Done {A} a.
Arguments Failed {A} e.

(** [[line.split(':', 1)[1].strip() for line in lines
      if line.lower().startswith(prefix)]] *)
Fixpoint directive_values (prefix : str) (lines : list str)
    : try (list str) :=
  match lines with
  | [] => Done []
  | line :: rest =>
      if startswith prefix (lower line) then
        match split_once (ch ":") line !! 1%nat with
        | Some value =>
            match directive_values prefix rest with
            | Done values => Done (strip value :: values)
            | Failed e => Failed e
            end
        | None => Failed IndexError
        end
      else directive_values prefix rest
  end.

(** The site the report is about: the crawl's surroundings and the three
    other fetches the report makes. *)
Record Host : Type := {
  env : Env;
  (** [session.get(robots_url, timeout=5)] *)
  get_robots : string -> world env -> outcome response * world env;
  (** [rp.read()] of a [RobotFileParser] set to the robots address *)
  rp_read : string -> world env -> outcome unit * world env;
  (** [session.get(menu_url)] *)
  get_page : string -> world env -> outcome response * world env
}.

(** What [analyze_robots_txt] returns: the text of the robots file, the
    sitemaps, the crawl delays and whether the file exists. *)
Record robots : Type := Robots_ {
  robots_txt : option str;
  sitemaps : list str;
  crawl_delays : list str;
  has_robots : bool
}.

(** [analyze_robots_txt]: only the fetch of the file is inside a [try],
    which catches [RequestException]. *)
Definition analyze_robots_txt (H : Host) (site_url : string)
    (w : world (env H)) : try robots * world (env H) :=
  let robots_url := rstrip_slash site_url +:+ "/robots.txt" in
  match get_robots H robots_url w with
  | (Raise RequestException, w1) => (Done (Robots_ None [] [] false), w1)
  | (Raise e, w1) => (Failed (Escaped e), w1)
  | (Ok resp, w1) =>
      if negb (status_code resp =? 200)%Z
      then (Done (Robots_ None [] [] false), w1)
      else
        match rp_read H robots_url w1 with
        | (Raise e, w2) => (Failed (Escaped e), w2)
        | (Ok _, w2) =>
            let lines := splitlines (content resp) in
            match directive_values (txt "sitemap:") lines with
            | Failed e => (Failed e, w2)
            | Done sitemaps =>
                match directive_values (txt "crawl-delay") lines with
                | Failed e => (Failed e, w2)
                | Done crawl_delays =>
                    (Done (Robots_ (Some (content resp)) sitemaps
                                   crawl_delays true), w2)
                end
            end
        end
  end.

End Robots.

(** ** The report *)

Module Report.
Import Text Re Segmenter Soup Crawl Analysis Robots.

(** [recommend_crawling_tools] *)
Definition recommend_crawling_tools (js_heavy : bool)
    (sitemaps : list str) : list string :=
  let recommendations :=
    if js_heavy then
      ["Use Selenium or Playwright for rendering JavaScript-heavy pages.";
       "Consider headless browsers or Puppeteer."]
    else
      ["Use Requests + BeautifulSoup for simple static pages.";
       "Scrapy is recommended for scalable crawling."] in
  if nonempty sitemaps
  then recommendations ++ ["Utilize sitemap URLs to improve crawl efficiency."]
  else recommendations.

(** [check_open_apis_and_feeds]: one fetch, inside a [try] that catches every
    exception; what it finds is only displayed. *)
Definition check_open_apis_and_feeds (E : Env) (base_url : string)
    (w : world E) : world E :=
  (session_get E base_url w).2.

(** [re.search(r'\d+', p).group()] in [price_to_float]: the digits handed
    to [float]; [None] is the [except] path, which returns 0. *)
Definition price_digits (p : str) : option str :=
  match search false (Group 0 (Plus Digit)) p with
  | Some m => Some (group m 0)
  | None => None
  end.

Definition site_url : string := "https://bonappetit.com.eg".
Definition menu_url : string := site_url +:+ "/menu-m/".

(** What a run of [main] has computed when it ends. *)
Record report : Type := Report_ {
  menu_data : list row;
  score : Z;
  recommendations : list string;
  crawled_with_selenium : bool
}.

Inductive ending (H : Host) : Type :=
  | Finished (r : report) (w : world (env H))
  | Failed_ (e : error) (w : world (env H)).
Arguments Finished {H} r w.
Arguments Failed_ {H} e w.

(** [main], without what it displays.  [depth] is the number of nested
    calls of [scrape_page] the recursion limit allows. *)
Definition main (H : Host) (depth : nat) (w : world (env H)) : ending H :=
  match analyze_robots_txt H site_url w with
  | (Failed e, w1) => Failed_ e w1
  | (Done r, w1) =>
      let w2 := check_open_apis_and_feeds (env H) site_url w1 in
      match get_page H menu_url w2 with
      | (Raise e, w3) => Failed_ (Escaped e) w3
      | (Ok resp, w3) =>
          let js_heavy := is_javascript_heavy (env H) (content resp) in
          match scrape_menu (env H) js_heavy depth menu_url w3 with
          | Raised e _ w4 => Failed_ (Escaped e) w4
          | Returned menu_data w4 =>
              Finished
                (Report_ menu_data
                   (calculate_crawlability_score (has_robots r)
                      (crawl_delays r) (sitemaps r) js_heavy)
                   (recommend_crawling_tools js_heavy (sitemaps r))
                   js_heavy)
                w4
          end
      end
  end.

End Report.

(** ** Notions the properties of the segmenter and of the crawl use *)

Module Menu.
Import Text Segmenter Soup Crawl.

(** A line that can start an item: no price line and no noise token. *)
Definition starts_item (line : str) : bool :=
  negb (is_price_line line)
  && negb (bool_decide (lower line ∈ noise_tokens)).

(** A pending item between two lines, whatever the lines: empty, or named
    and not yet priced. *)
Definition unpriced (current_item : dict) : Prop :=
  current_item = ∅
  \/ (is_Some (current_item !! "name") /\ current_item !! "price" = None).

(** The name a pending item has, if any. *)
Definition pending_name (current_item : dict) : list str :=
  match current_item !! "name" with
  | Some n => [n]
  | None => []
  end.

(** The description the lines [descs] build: each one after a space. *)
Fixpoint space_joined (descs : list str) : str :=
  match descs with
  | [] => []
  | d :: descs' => txt " " ++ d ++ space_joined descs'
  end.

(** A page with one category panel, titled "Drinks", whose body holds the
    lines "Tea" and "15 LE". *)
Definition drinks_page : node :=
  Tag "[document]" [] None
    [Tag "div" ["vc_tta-panel"] None
       [Tag "div" ["vc_tta-panel-heading"] None
          [Tag "span" ["vc_tta-title-text"] None
             [NavigableString (txt " Drinks ")]];
        Tag "div" ["vc_tta-panel-body"] None
          [Tag "p" [] None [NavigableString (txt "Tea")];
           Tag "p" [] None [NavigableString (txt "15 LE")]]]].

(** A host that serves [doc] at every address and answers the request for
    the robots file with [status] and [robots_body]. *)
Definition host_with_robots (doc : node) (status : Z) (robots_body : str)
    : Robots.Host := {|
  Robots.env := static_site doc;
  Robots.get_robots := fun _ w => (Ok (Response status robots_body), w);
  Robots.rp_read := fun _ w => (Ok tt, w);
  Robots.get_page := fun _ w => (Ok (Response 200 []), w)
|}.

(** A document whose only content is a pagination link to [href]. *)
Definition page_linking_to (href : string) : node :=
  Tag "[document]" [] None [Tag "a" ["next"] (Some href) []].

(** A site that serves the pages [pages] one after the other, whatever the
    address, and fails from then on: the plain fetch with status 404, the
    browser with an exception.  The world counts the fetches made. *)
Definition site_serving (pages : list node) : Env := {|
  world := nat;
  session_get := fun _ n =>
    (Ok (Response (if (n <? length pages)%nat then 200 else 404)
                  [N.of_nat n]), S n);
  chrome_page_source := fun _ n =>
    (if (n <? length pages)%nat then Ok [N.of_nat n]
     else Raise WebDriverException, S n);
  BeautifulSoup := fun markup =>
    match markup with
    | [n] => nth (N.to_nat n) pages (Tag "[document]" [] None [])
    | _ => Tag "[document]" [] None []
    end
|}.

(** A page like [drinks_page] that also carries a pagination link. *)
Definition drinks_page_with_next : node :=
  match drinks_page with
  | Tag name class_ href contents =>
      Tag name class_ href
          (contents ++ [Tag "a" ["next"] (Some "/menu-m/page/2/") []])
  | n => n
  end.

End Menu.


(** ** Notions the properties of the character tables use *)

Module Chars.
Import Text Re.

(** The ranges of the decimal digits and of the characters that have a
    lower-case image. *)
Definition digit_ranges : list (N * N) :=
  map (fun zero => (zero, zero + 9)%N) digit_zeros.

Definition run_ranges : list (N * N) :=
  map (fun run : N * N * N * N => let '(first, last, _, _) := run in (first, last))
      lower_runs.

(** No range of the first list meets a range of the second. *)
Definition ranges_disjoint (r1 r2 : list (N * N)) : bool :=
  forallb (fun a : N * N =>
             forallb (fun b : N * N => (a.2 <? b.1)%N || (b.2 <? a.1)%N) r2)
          r1.

(** The characters a run maps to [t]. *)
Definition run_preimages (t : N) : list N :=
  flat_map (fun run : N * N * N * N =>
              let '(first, last, _, image) := run in
              if (image <=? t)%N && (t <=? image + (last - first))%N
              then [(first + (t - image))%N] else [])
           lower_runs.

(** The characters a literal can match under [re.IGNORECASE]. *)
Definition literal_chars (l : N) : list N :=
  flat_map (fun lo => lo :: run_preimages lo) (cases_of (lower_char l)).

(** A prefix that neither a lower-cased sigma nor a lower-cased dotted
    capital I can take part in. *)
Definition plain_prefix (p : str) : bool :=
  forallb (fun x => negb (x =? 962)%N && negb (x =? 963)%N && negb (x =? 775)%N) p
  && negb (bool_decide (last p = Some 105%N)).

End Chars.

(** * Properties *)

(** ** The matcher only returns matches the pattern allows *)

Module ReFacts.
Import Text Re.

Section Soundness.
Context {A : Type}.
Variable ic : bool.

Lemma star_sound (a : atom) (s : str) :
  forall (pos : nat) (k : nat -> str -> option A) (x : A),
    star ic a pos s k = Some x ->
    exists w s',
      s = w ++ s'
      /\ Forall (fun c => atom_match ic a c = true) w
      /\ k (pos + length w)%nat s' = Some x.
Proof.
  induction s as [|c s IH]; intros pos k x H; simpl in H.
  - exists [], []. rewrite Nat.add_0_r. auto.
  - destruct (atom_match ic a c) eqn:Hc.
    + destruct (star ic a (S pos) s k) as [y|] eqn:Hs.
      * inversion H; subst y.
        destruct (IH _ _ _ Hs) as (w & s' & -> & Hw & Hk).
        exists (c :: w), s'. split; [reflexivity|]. split.
        { constructor; assumption. }
        simpl. rewrite <- Hk. f_equal. lia.
      * exists [], (c :: s). rewrite Nat.add_0_r. auto.
    + exists [], (c :: s). rewrite Nat.add_0_r. auto.
Qed.

Lemma run_sound (r : regex) :
  forall (pos : nat) (s : str) (g : groups)
         (k : nat -> str -> groups -> option A) (x : A),
    run ic r pos s g k = Some x ->
    exists w s' g',
      s = w ++ s'
      /\ derives ic r pos g w s' g'
      /\ k (pos + length w)%nat s' g' = Some x.
Proof.
  induction r as [|a|a|r1 IH1 r2 IH2|r1 IH1 r2 IH2|n r IH| |];
    intros pos s g k x H; simpl in H.
  - exists [], s, g. rewrite Nat.add_0_r. simpl. auto.
  - destruct s as [|c s]; [discriminate|].
    destruct (atom_match ic a c) eqn:Hc; [|discriminate].
    exists [c], s, g. simpl. replace (pos + 1)%nat with (S pos) by lia.
    eauto 6.
  - apply star_sound in H as (w & s' & -> & Hw & Hk).
    exists w, s', g. simpl. auto.
  - apply IH1 in H as (w1 & s1 & g1 & -> & D1 & H).
    apply IH2 in H as (w2 & s2 & g2 & -> & D2 & H).
    exists (w1 ++ w2), s2, g2. rewrite <- app_assoc. split; [reflexivity|].
    split.
    + simpl. exists w1, w2, g1. auto.
    + rewrite length_app, Nat.add_assoc. exact H.
  - destruct (run ic r1 pos s g k) as [y|] eqn:H1.
    + inversion H; subst y.
      apply IH1 in H1 as (w & s' & g' & -> & D & Hk).
      exists w, s', g'. simpl. auto.
    + apply IH2 in H as (w & s' & g' & -> & D & Hk).
      exists w, s', g'. simpl. auto.
  - apply IH in H as (w & s' & g1 & -> & D & Hk).
    exists w, s', (<[n := w]> g1).
    split; [reflexivity|]. split.
    + simpl. exists g1. auto.
    + replace (pos + length w - pos)%nat with (length w) in Hk by lia.
      rewrite take_app_length in Hk. exact Hk.
  - destruct (pos =? 0)%nat eqn:Hp; [|discriminate].
    apply Nat.eqb_eq in Hp.
    exists [], s, g. rewrite Nat.add_0_r. simpl. auto.
  - exists [], s, g. rewrite Nat.add_0_r. simpl.
    destruct s as [|c [|d s]]; [auto 6| |discriminate].
    destruct (N.eqb_spec c 10) as [->|]; [|discriminate]. auto 6.
Qed.
End Soundness.

(** A successful search found its match at some offset of the subject. *)
Lemma search_from_sound (ic : bool) (r : regex) (s : str) :
  forall (pos : nat) (m : groups),
    search_from ic r pos s = Some m ->
    exists skipped w s',
      s = skipped ++ w ++ s'
      /\ derives ic r (pos + length skipped) ∅ w s' m.
Proof.
  induction s as [|c s IH]; intros pos m H; simpl in H.
  - destruct (run ic r pos [] ∅ _) as [g|] eqn:Hr; [|discriminate].
    inversion H; subst g.
    apply run_sound in Hr as (w & s' & g' & Hs & D & Hk).
    inversion Hk; subst g'.
    exists [], w, s'. rewrite Nat.add_0_r. auto.
  - destruct (run ic r pos (c :: s) ∅ _) as [g|] eqn:Hr.
    + inversion H; subst g.
      apply run_sound in Hr as (w & s' & g' & Hs & D & Hk).
      inversion Hk; subst g'.
      exists [], w, s'. rewrite Nat.add_0_r. auto.
    + apply IH in H as (skipped & w & s' & -> & D).
      exists (c :: skipped), w, s'. split; [reflexivity|].
      simpl. replace (pos + S (length skipped))%nat
        with (S pos + length skipped)%nat by lia.
      exact D.
Qed.

Lemma match_sound (ic : bool) (r : regex) (subject : str) (m : groups) :
  match_ ic r subject = Some m ->
  exists w s',
    subject = w ++ s' /\ derives ic r 0 ∅ w s' m.
Proof.
  unfold match_. intros H.
  apply run_sound in H as (w & s' & g' & Hs & D & Hk).
  inversion Hk; subst g'. eauto.
Qed.

End ReFacts.

(** ** The character tables *)

Module CharFacts.
Import Text Re Chars.

Lemma in_ranges_true (ranges : list (N * N)) (c : N) :
  in_ranges ranges c = true
  <-> exists r, In r ranges /\ (r.1 <= c)%N /\ (c <= r.2)%N.
Proof.
  unfold in_ranges. rewrite existsb_exists. split.
  - intros (r & Hin & Hr). apply andb_true_iff in Hr as [H1 H2].
    apply N.leb_le in H1, H2. eauto.
  - intros (r & Hin & H1 & H2). exists r. split; [exact Hin|].
    apply andb_true_iff. split; apply N.leb_le; assumption.
Qed.

Lemma disjoint_ranges (r1 r2 : list (N * N)) (c : N) :
  ranges_disjoint r1 r2 = true ->
  in_ranges r1 c = true -> in_ranges r2 c = false.
Proof.
  intros Hd H1. destruct (in_ranges r2 c) eqn:H2; [|reflexivity].
  apply in_ranges_true in H1 as (a & Ha & Ha1 & Ha2).
  apply in_ranges_true in H2 as (b & Hb & Hb1 & Hb2).
  unfold ranges_disjoint in Hd. rewrite forallb_forall in Hd.
  specialize (Hd a Ha). rewrite forallb_forall in Hd. specialize (Hd b Hb).
  apply orb_true_iff in Hd as [Hd|Hd]; apply N.ltb_lt in Hd; lia.
Qed.

Lemma is_digit_ranges (c : N) : is_digit c = in_ranges digit_ranges c.
Proof.
  unfold is_digit, in_ranges, digit_ranges.
  induction digit_zeros as [|z zs IH]; [reflexivity|].
  cbn [existsb map fst snd]. rewrite IH. reflexivity.
Qed.

(** White space is no digit. *)
Lemma space_is_no_digit (c : N) : is_space c = true -> is_digit c = false.
Proof.
  intros H. rewrite is_digit_ranges.
  apply (disjoint_ranges space_ranges); [vm_compute; reflexivity|exact H].
Qed.

Lemma digit_is_no_space (c : N) : is_digit c = true -> is_space c = false.
Proof.
  intros H. destruct (is_space c) eqn:Hs; [|reflexivity].
  apply space_is_no_digit in Hs. congruence.
Qed.

Lemma in_run_range (run : N * N * N * N) (c : N) :
  in_run run c = true -> in_ranges [(run.1.1.1, run.1.1.2)] c = true.
Proof.
  destruct run as [[[f l] s] img]. unfold in_run, in_ranges.
  cbn [existsb fst snd]. intros H.
  apply andb_true_iff in H as [H _]. rewrite H. reflexivity.
Qed.

(** A character outside the runs is its own lower case. *)
Lemma lower_char_outside (c : N) :
  in_ranges run_ranges c = false -> lower_char c = c.
Proof.
  unfold lower_char. intros H.
  destruct (List.find (fun run => in_run run c) lower_runs)
    as [[[[f l] s] img]|] eqn:Hf; [|reflexivity].
  apply find_some in Hf as [Hin Hrun].
  assert (in_ranges run_ranges c = true); [|congruence].
  apply in_ranges_true. exists (f, l). split.
  - unfold run_ranges. apply in_map_iff. exists (f, l, s, img). auto.
  - apply in_run_range in Hrun. apply in_ranges_true in Hrun
      as (r & [<-|[]] & H1 & H2). auto.
Qed.

(** Lower-casing leaves the digits alone. *)
Lemma lower_char_digit (c : N) : is_digit c = true -> lower_char c = c.
Proof.
  intros H. apply lower_char_outside.
  apply (disjoint_ranges digit_ranges); [vm_compute; reflexivity|].
  rewrite <- is_digit_ranges. exact H.
Qed.

(** The characters with a given lower case. *)
Lemma lower_char_preimage (c t : N) :
  lower_char c = t -> c = t \/ In c (run_preimages t).
Proof.
  unfold lower_char.
  destruct (List.find (fun run => in_run run c) lower_runs)
    as [[[[f l] s] img]|] eqn:Hf; [|auto].
  intros <-. right. apply find_some in Hf as [Hin Hrun].
  unfold run_preimages. apply in_flat_map. exists (f, l, s, img).
  split; [exact Hin|].
  unfold in_run in Hrun. apply andb_true_iff in Hrun as [Hrun _].
  apply andb_true_iff in Hrun as [H1 H2]. apply N.leb_le in H1, H2.
  assert (Hb : ((img <=? img + (c - f)) && (img + (c - f) <=? img + (l - f)))%N
               = true).
  { apply andb_true_iff. split; apply N.leb_le; lia. }
  rewrite Hb. left. lia.
Qed.

(** The characters a literal matches when case is ignored. *)
Lemma literal_match_chars (l c : N) :
  atom_match true (Lit l) c = true -> In c (literal_chars l).
Proof.
  cbn [atom_match]. intros H. apply existsb_exists in H as (lo & Hin & Hlo).
  apply N.eqb_eq in Hlo. unfold literal_chars. apply in_flat_map.
  exists lo. split; [exact Hin|].
  destruct (lower_char_preimage c lo Hlo) as [->|Hp]; [left|right]; auto.
Qed.

(** The letter L of the currency marker is neither digit nor white space. *)
Lemma currency_letter (c : N) :
  atom_match true (Lit (ch "L")) c = true ->
  is_digit c = false /\ is_space c = false.
Proof.
  intros H. apply literal_match_chars in H. vm_compute in H.
  destruct H as [<-|[<-|[]]]; split; vm_compute; reflexivity.
Qed.

(** A digit is not the letter P. *)
Lemma digit_is_no_letter (c : N) :
  is_digit c = true -> atom_match true (Lit (ch "P")) c = false.
Proof.
  intros Hd. destruct (atom_match true (Lit (ch "P")) c) eqn:H; [|reflexivity].
  apply literal_match_chars in H. vm_compute in H.
  destruct H as [<-|[<-|[]]]; vm_compute in Hd; discriminate.
Qed.

Lemma lower_at_plain (before after : str) (c : N) :
  c <> 931%N -> c <> 304%N -> lower_at before after c = [lower_char c].
Proof.
  intros H1 H2. unfold lower_at.
  destruct (N.eqb_spec c 931); [contradiction|].
  destruct (N.eqb_spec c 304); [contradiction|]. reflexivity.
Qed.

Lemma lower_at_digit (before after : str) (c : N) :
  is_digit c = true -> lower_at before after c = [c].
Proof.
  intros H. rewrite lower_at_plain.
  - rewrite (lower_char_digit c H). reflexivity.
  - intros ->. vm_compute in H. discriminate.
  - intros ->. vm_compute in H. discriminate.
Qed.

(** A digit of a text is still there in its lower case. *)
Lemma lower_keeps_digits (s : str) :
  forall (before : str) (c : N),
    In c s -> is_digit c = true -> In c (lower_from before s).
Proof.
  induction s as [|x s IH]; intros before c Hin Hd; [contradiction|].
  cbn [lower_from]. apply in_or_app. destruct Hin as [->|Hin].
  - left. rewrite (lower_at_digit _ _ _ Hd). left. reflexivity.
  - right. apply IH; assumption.
Qed.

Lemma lower_from_plain (s : str) :
  forall before,
    Forall (fun c => c <> 931%N /\ c <> 304%N) s ->
    lower_from before s = map lower_char s.
Proof.
  induction s as [|c s IH]; intros before Hs; [reflexivity|].
  inversion Hs as [|? ? [H1 H2] Hs']; subst. cbn [lower_from map].
  rewrite (lower_at_plain _ _ _ H1 H2), (IH _ Hs'). reflexivity.
Qed.

Lemma plain_prefix_tail (x : N) (p : str) :
  plain_prefix (x :: p) = true -> plain_prefix p = true.
Proof.
  unfold plain_prefix. intros H. apply andb_true_iff in H as [Hall Hlast].
  cbn [forallb] in Hall. apply andb_true_iff in Hall as [_ Hall].
  rewrite Hall. cbn [andb]. destruct p as [|y p]; [reflexivity|].
  exact Hlast.
Qed.

(** A text whose lower case starts with a plain prefix starts with
    characters that lower-case, one by one, to the prefix. *)
Lemma prefix_lower (p : str) :
  plain_prefix p = true ->
  forall before line,
    startswith p (lower_from before line) = true ->
    exists head rest,
      line = head ++ rest
      /\ map lower_char head = p
      /\ Forall (fun c => c <> 931%N /\ c <> 304%N) head.
Proof.
  induction p as [|x p IH]; intros Hp before line H.
  - exists [], line. repeat split. constructor.
  - destruct line as [|c line]; [discriminate|].
    pose proof (plain_prefix_tail _ _ Hp) as Hp'.
    unfold plain_prefix in Hp. apply andb_true_iff in Hp as [Hall Hlast].
    cbn [forallb] in Hall. apply andb_true_iff in Hall as [Hx Hall].
    apply andb_true_iff in Hx as [Hx H775].
    apply andb_true_iff in Hx as [H962 H963].
    apply negb_true_iff, N.eqb_neq in H962, H963, H775.
    cbn [lower_from] in H. unfold lower_at in H.
    destruct (N.eqb_spec c 931) as [->|Hs].
    { cbn [app startswith] in H. apply andb_true_iff in H as [H _].
      apply N.eqb_eq in H. destruct (final_sigma before line); congruence. }
    destruct (N.eqb_spec c 304) as [->|Hi].
    { cbn [app startswith] in H. apply andb_true_iff in H as [H1 H2].
      apply N.eqb_eq in H1. subst x.
      destruct p as [|y p].
      - apply negb_true_iff, bool_decide_eq_false in Hlast.
        exfalso. apply Hlast. reflexivity.
      - cbn [startswith] in H2. apply andb_true_iff in H2 as [H2 _].
        apply N.eqb_eq in H2. subst y.
        cbn [forallb] in Hall. apply andb_true_iff in Hall as [Hy _].
        apply andb_true_iff in Hy as [_ Hy]. discriminate. }
    cbn [app startswith] in H. apply andb_true_iff in H as [H1 H2].
    apply N.eqb_eq in H1.
    destruct (IH Hp' _ _ H2) as (head & rest & -> & Hm & Hf).
    exists (c :: head), rest. split; [reflexivity|]. split.
    + cbn [map]. congruence.
    + constructor; auto.
Qed.

End CharFacts.

(** ** The segmenter *)

Module SegmenterFacts.
Import Text Re Segmenter ReFacts CharFacts.

Ltac break_derives :=
  repeat match goal with
         | H : _ /\ _ |- _ => destruct H
         | H : exists _, _ |- _ => destruct H
         | H : _ \/ _ |- _ => destruct H
         end.

(** The currency marker has no group of its own. *)
Lemma currency_keeps_groups (pos : nat) (g g' : groups) (w s' : str) :
  derives true currency pos g w s' g' -> g' = g.
Proof.
  unfold currency, Seq, Opt. cbn [derives]. intros D.
  break_derives; subst; reflexivity.
Qed.

(** The general price pattern captures, as group 2, a non-empty run of digits
    that stands in the line. *)
Lemma price_pattern_amount (line : str) (m : groups) :
  search true price_pattern line = Some m ->
  exists before digits after,
    line = before ++ digits ++ after
    /\ digits <> []
    /\ Forall (fun c => is_digit c = true) digits
    /\ m !! 2%nat = Some digits.
Proof.
  unfold search. intros H.
  apply search_from_sound in H as (skipped & w & s' & Hs & D).
  unfold price_pattern, Seq in D.
  destruct D as (w1 & w23 & g1 & -> & _ & D).
  destruct D as (w2 & w3 & g2 & -> & D2 & D3).
  destruct D2 as (g2' & Dd & ->).
  destruct Dd as (d1 & d2 & gd & -> & Da & Db).
  destruct Da as (c & -> & Hc & ->).
  destruct Db as (Hds & ->).
  destruct D3 as (w4 & w5 & g4 & -> & (_ & ->) & (g5 & Dc & ->)).
  apply currency_keeps_groups in Dc. subst g5.
  exists (skipped ++ w1), ([c] ++ d2), (w4 ++ w5 ++ s').
  split; [|split; [|split]].
  - rewrite Hs. rewrite <- !app_assoc. reflexivity.
  - discriminate.
  - constructor; assumption.
  - rewrite lookup_insert_ne by discriminate. apply lookup_insert_eq.
Qed.

Lemma append_nonempty_r (a b : str) : b <> [] -> a ++ b <> [].
Proof. destruct a; simpl; [auto | discriminate]. Qed.

Lemma step_price (cur : dict) (items : list dict) (line p : str) :
  line_price line = Some p ->
  step (cur, items) line =
    if bool_decide (cur = ∅) then (cur, items)
    else (∅, items ++ [<["price" := p ++ (txt " L.E")]> cur]).
Proof. intros H. unfold step. rewrite H. reflexivity. Qed.

Lemma step_fragment (cur : dict) (items : list dict) (line : str) :
  line_price line = None ->
  is_Some (cur !! "name") -> cur !! "price" = None ->
  step (cur, items) line =
    (<["description" := default [] (cur !! "description") ++ (txt " ") ++ line]> cur,
     items).
Proof.
  intros H Hn Hp. unfold step. rewrite H.
  rewrite (bool_decide_eq_true_2 _ Hn).
  rewrite bool_decide_eq_false_2; [reflexivity|].
  rewrite Hp. intros [? ?]. discriminate.
Qed.

Lemma step_unnamed (cur : dict) (items : list dict) (line : str) :
  line_price line = None ->
  ~ (is_Some (cur !! "name") /\ cur !! "price" = None) ->
  step (cur, items) line =
    if bool_decide (lower line ∈ noise_tokens) then (cur, items)
    else ({["name" := line]}, items).
Proof.
  intros H Hc. unfold step. rewrite H.
  destruct (bool_decide (is_Some (cur !! "name"))) eqn:Hn; simpl.
  - destruct (bool_decide (is_Some (cur !! "price"))) eqn:Hp; simpl.
    + destruct (bool_decide (lower line ∈ noise_tokens)); reflexivity.
    + exfalso. apply Hc. split.
      * apply bool_decide_eq_true in Hn. exact Hn.
      * apply bool_decide_eq_false in Hp.
        destruct (cur !! "price") eqn:Hq; [|reflexivity].
        exfalso. apply Hp. eauto.
  - destruct (bool_decide (lower line ∈ noise_tokens)); reflexivity.
Qed.

(** Every line either leaves the finished items as they are or appends the
    pending item with the price of that line. *)
Lemma step_emits (st : dict * list dict) (line : str) :
  (step st line).2 = st.2
  \/ exists p,
      line_price line = Some p
      /\ st.1 <> ∅
      /\ (step st line).2 = st.2 ++ [<["price" := p ++ (txt " L.E")]> st.1]
      /\ (step st line).1 = ∅.
Proof.
  destruct st as [cur items]. unfold step.
  destruct (line_price line) as [p|] eqn:Hp.
  - case_bool_decide as Hc.
    + left. reflexivity.
    + right. exists p. simpl. auto.
  - left.
    repeat match goal with
           | |- context [if ?b then _ else _] => destruct b
           end; reflexivity.
Qed.

Lemma step_preserves (st : dict * list dict) (line : str) :
  line <> [] ->
  pending st.1 -> Forall complete st.2 ->
  pending (step st line).1 /\ Forall complete (step st line).2.
Proof.
  destruct st as [cur items]. intros Hl Hcur Hitems.
  cbn [fst snd] in Hcur, Hitems.
  destruct (line_price line) as [p|] eqn:Hp.
  - rewrite (step_price _ _ _ _ Hp).
    case_bool_decide as Hc; simpl; [auto|].
    split; [left; reflexivity|].
    apply Forall_app. split; [assumption|].
    constructor; [|constructor].
    destruct Hcur as [->|[[n [Hn Hne]] _]]; [congruence|].
    exists n, (p ++ (txt " L.E")).
    rewrite lookup_insert_ne by discriminate.
    rewrite lookup_insert_eq.
    repeat split; auto.
    apply append_nonempty_r. discriminate.
  - destruct Hcur as [->|[[n [Hn Hne]] Hnp]].
    + rewrite step_unnamed; [|assumption|].
      * case_bool_decide; simpl; [split; [left; reflexivity|assumption]|].
        split; [|assumption]. right. split.
        -- exists line. rewrite lookup_singleton_eq. auto.
        -- apply lookup_singleton_ne. discriminate.
      * rewrite lookup_empty. intros [[? ?] _]. discriminate.
    + rewrite step_fragment; [|assumption|rewrite Hn; eauto|assumption].
      simpl. split; [|assumption]. right. split.
      * exists n. rewrite lookup_insert_ne by discriminate. auto.
      * rewrite lookup_insert_ne by discriminate. assumption.
Qed.

Lemma fold_step_preserves (lines : list str) :
  forall st : dict * list dict,
    Forall (fun line => line <> []) lines ->
    pending st.1 -> Forall complete st.2 ->
    pending (fold_left step lines st).1
    /\ Forall complete (fold_left step lines st).2.
Proof.
  induction lines as [|line lines IH]; intros st Hl Hc Hi; simpl; [auto|].
  inversion Hl; subst.
  destruct (step_preserves st line) as [Hc' Hi']; auto.
Qed.

Lemma fold_step_count (lines : list str) :
  forall st : dict * list dict,
    (length (fold_left step lines st).2
     <= length st.2 + length (List.filter is_price_line lines))%nat.
Proof.
  induction lines as [|line lines IH]; intros st; simpl; [lia|].
  specialize (IH (step st line)).
  destruct (step_emits st line) as [He|(p & Hp & _ & He & _)].
  - rewrite He in IH. destruct (is_price_line line); simpl; lia.
  - rewrite He, length_app in IH. cbn [length] in IH.
    assert (Hb : is_price_line line = true)
      by (unfold is_price_line; rewrite Hp; reflexivity).
    rewrite Hb. cbn [length]. lia.
Qed.

(** The loop visits the lines from [i] on, once each and in order, and more
    fuel than lines are left changes nothing. *)
Lemma while_lines_fold (lines : list str) (fuel : nat) :
  forall (i : nat) (st : dict * list dict),
    (length lines - i <= fuel)%nat ->
    while_lines lines fuel i st = fold_left step (drop i lines) st.
Proof.
  induction fuel as [|fuel IH]; intros i st Hf; cbn [while_lines].
  - rewrite drop_ge by lia. reflexivity.
  - destruct (Nat.ltb_spec i (length lines)) as [Hlt|Hge].
    + destruct (lookup_lt_is_Some_2 lines i Hlt) as [line Hline].
      rewrite Hline, (drop_S _ _ _ Hline). cbn [fold_left].
      rewrite IH by lia. replace (i + 1)%nat with (S i) by lia. reflexivity.
    + rewrite drop_ge by lia. reflexivity.
Qed.

Lemma run_lines_fold (lines : list str) :
  run_lines lines = fold_left step lines (∅, []).
Proof.
  unfold run_lines. rewrite while_lines_fold by lia. reflexivity.
Qed.

Lemma pending_not_priced (cur : dict) :
  pending cur ->
  negb (bool_decide (cur = ∅)) && bool_decide (is_Some (cur !! "price")) = false.
Proof.
  intros [->|[_ Hp]].
  - rewrite bool_decide_eq_true_2 by reflexivity. reflexivity.
  - rewrite (bool_decide_eq_false_2 (is_Some _)).
    + apply andb_false_r.
    + rewrite Hp. intros [? ?]. discriminate.
Qed.

Lemma pending_empty : pending ∅.
Proof. left. reflexivity. Qed.

(** After the loop over non-empty lines the flush has nothing to add. *)
Lemma segment_is_loop_items (lines : list str) :
  Forall (fun line => line <> []) lines ->
  segment lines = (run_lines lines).2.
Proof.
  intros Hl. unfold segment.
  destruct (fold_step_preserves lines (∅, []) Hl pending_empty (List.Forall_nil _))
    as [Hc _].
  rewrite <- run_lines_fold in Hc.
  destruct (run_lines lines) as [cur items]. simpl in *.
  rewrite (pending_not_priced _ Hc). reflexivity.
Qed.

(** The whole-line price pattern captures, as group 1, a non-empty run of
    digits at the start of the line. *)
Lemma price_only_pattern_amount (line : str) (m : groups) :
  match_ true price_only_pattern line = Some m ->
  exists digits after,
    line = digits ++ after
    /\ digits <> []
    /\ Forall (fun c => is_digit c = true) digits
    /\ m !! 1%nat = Some digits.
Proof.
  intros H. apply match_sound in H as (w & s' & Hs & D).
  unfold price_only_pattern, Seq in D.
  destruct D as (w0 & w1 & g0 & -> & (_ & -> & ->) & D).
  destruct D as (w2 & w3 & g2 & -> & D2 & D3).
  destruct D2 as (g2' & Dd & ->).
  destruct Dd as (d1 & d2 & gd & -> & Da & Db).
  destruct Da as (c & -> & Hc & ->).
  destruct Db as (Hds & ->).
  destruct D3 as (w4 & w5 & g4 & -> & (_ & ->) & D5).
  destruct D5 as (w6 & w7 & g6 & -> & (g7 & Dc & ->) & D7).
  apply currency_keeps_groups in Dc. subst g7.
  unfold Opt in D7. cbn [derives] in D7.
  assert (m = <[2%nat := w6]> (<[1%nat := [c] ++ d2]> ∅)) as ->
    by (break_derives; subst; reflexivity).
  exists ([c] ++ d2), (w4 ++ w6 ++ w7 ++ s').
  split; [|split; [|split]].
  - rewrite Hs. cbn [app]. rewrite <- !app_assoc. reflexivity.
  - discriminate.
  - constructor; assumption.
  - rewrite lookup_insert_ne by discriminate. apply lookup_insert_eq.
Qed.

(** The price of a price line is a non-empty run of digits of that line. *)
Lemma line_price_digits (line p : str) :
  line_price line = Some p ->
  exists before digits after,
    line = before ++ digits ++ after
    /\ digits <> []
    /\ Forall (fun c => is_digit c = true) digits
    /\ p = digits.
Proof.
  unfold line_price, group. intros H.
  destruct (search true price_pattern line) as [m|] eqn:Hs.
  - apply price_pattern_amount in Hs as (b & d & a & Hl & Hd & Hf & Hm).
    rewrite Hm in H. inversion H. eauto 8.
  - destruct (match_ true price_only_pattern line) as [m|] eqn:Hm;
      [|discriminate].
    apply price_only_pattern_amount in Hm as (d & a & Hl & Hd & Hf & Hm).
    rewrite Hm in H. inversion H. exists [], d, a. eauto 8.
Qed.

Lemma no_digit_no_price (line : str) :
  Forall (fun c => is_digit c = false) line ->
  line_price line = None.
Proof.
  intros Hnd. destruct (line_price line) as [p|] eqn:Hp; [|reflexivity].
  apply line_price_digits in Hp as (b & d & a & Hl & Hd & Hf & _).
  destruct d as [|c d]; [congruence|].
  rewrite Hl in Hnd.
  apply Forall_app in Hnd as [_ Hnd]. apply Forall_app in Hnd as [Hnd _].
  inversion Hnd; subst. inversion Hf; subst. congruence.
Qed.

(** A noise token carries no digit, hence matches neither price pattern. *)
Lemma noise_token_no_price (line : str) :
  lower line ∈ noise_tokens -> line_price line = None.
Proof.
  intros Hn. destruct (line_price line) as [p|] eqn:Hp; [|reflexivity].
  exfalso.
  apply line_price_digits in Hp as (b & d & a & Hl & Hd & Hf & _).
  destruct d as [|c d]; [congruence|].
  inversion Hf as [|? ? Hc _]; subst.
  assert (Hin : In c (lower (b ++ (c :: d) ++ a))).
  { apply lower_keeps_digits; [|exact Hc].
    apply in_or_app. right. left. reflexivity. }
  unfold noise_tokens in Hn.
  repeat (apply elem_of_cons in Hn as [Heq|Hn];
          [rewrite Heq in Hin; vm_compute in Hin;
           repeat (destruct Hin as [<-|Hin];
                   [vm_compute in Hc; discriminate|]);
           contradiction|]).
  apply elem_of_nil in Hn. contradiction.
Qed.

Lemma fold_step_app (pre post : list str) (st : dict * list dict) :
  fold_left step (pre ++ post) st = fold_left step post (fold_left step pre st).
Proof. apply fold_left_app. Qed.

(** C1: for every sequence of text lines (trimmed, hence non-empty), every
    item the segmenter emits has a non-empty name and a non-empty price, and
    so has its row; the flush after the loop adds nothing; each line either
    emits nothing or emits the pending item with the price of that very
    line, so that there are at most as many items as price lines and a
    pending item that meets no price line is not emitted. *)
Theorem emitted_items_have_name_and_price (lines : list str) :
  Forall (fun line => line <> []) lines ->
  (forall it, it ∈ segment lines -> complete it)
  /\ (forall c r, r ∈ map (row_of c) (segment lines) ->
                  item_name r <> [] /\ price r <> [])
  /\ segment lines = (run_lines lines).2
  /\ (forall st line,
        (step st line).2 = st.2
        \/ exists p, line_price line = Some p
                     /\ (step st line).2
                        = st.2 ++ [<["price" := p ++ (txt " L.E")]> st.1])
  /\ (length (segment lines)
      <= length (List.filter is_price_line lines))%nat
  /\ (List.filter is_price_line lines = [] -> segment lines = []).
Proof.
  intros Hl.
  pose proof (segment_is_loop_items lines Hl) as Hseg.
  destruct (fold_step_preserves lines (∅, []) Hl pending_empty
              (List.Forall_nil _)) as [_ Hitems].
  rewrite <- run_lines_fold in Hitems. rewrite <- Hseg in Hitems.
  pose proof (fold_step_count lines (∅, [])) as Hcount.
  rewrite <- run_lines_fold in Hcount. rewrite <- Hseg in Hcount.
  cbn [snd length] in Hcount.
  assert (Hall : forall it, it ∈ segment lines -> complete it)
    by (apply Forall_forall; exact Hitems).
  split; [exact Hall|]. split; [|split; [exact Hseg|split; [|split]]].
  - intros c r Hr. apply list_elem_of_fmap in Hr as (it & -> & Hit).
    destruct (Hall it Hit) as (n & p & Hn & Hne & Hp & Hpe).
    unfold row_of. simpl. rewrite Hn, Hp. simpl. auto.
  - intros st line.
    destruct (step_emits st line) as [He|(p & Hp & _ & He & _)]; eauto.
  - lia.
  - intros Hnone. rewrite Hnone in Hcount. simpl in Hcount.
    destruct (segment lines); [reflexivity|simpl in Hcount; lia].
Qed.

Lemma emitted_items_have_name_and_price_witness :
  Forall (fun line => line <> []) [txt "Tea"; txt "hot"; txt "15 LE"; txt "Cake"]
  /\ forall it, it ∈ segment [txt "Tea"; txt "hot"; txt "15 LE"; txt "Cake"] -> complete it.
Proof.
  assert (H : Forall (fun line => line <> []) [txt "Tea"; txt "hot"; txt "15 LE"; txt "Cake"])
    by (repeat constructor; discriminate).
  split; [exact H|].
  exact (proj1 (emitted_items_have_name_and_price _ H)).
Defined.

(** C2, as the code has it: segmenting ["Soup"; "Salad"; "40 L.E"] yields
    exactly one item, named "Soup", with description " Salad" and price
    "40 L.E"; in general a line without a price that arrives while the
    pending item has a name and no price is appended to the description and
    leaves the name as it is. *)
Theorem second_name_line_joins_description :
  segment [txt "Soup"; txt "Salad"; txt "40 L.E"]
    = [<["price" := (txt "40 L.E")]>
         (<["description" := (txt " Salad")]> {["name" := (txt "Soup")]})]
  /\ (forall c, map (row_of c) (segment [txt "Soup"; txt "Salad"; txt "40 L.E"])
                = [Row c (txt "Soup") (txt " Salad") (txt "40 L.E")])
  /\ (forall (cur : dict) items line,
        line_price line = None ->
        is_Some (cur !! "name") -> cur !! "price" = None ->
        (step (cur, items) line).2 = items
        /\ (step (cur, items) line).1 !! "name" = cur !! "name"
        /\ (step (cur, items) line).1 !! "description"
           = Some (default [] (cur !! "description") ++ (txt " ") ++ line)).
Proof.
  assert (H : segment [txt "Soup"; txt "Salad"; txt "40 L.E"]
              = [<["price" := (txt "40 L.E")]>
                   (<["description" := (txt " Salad")]> {["name" := (txt "Soup")]})])
    by (vm_compute; reflexivity).
  split; [exact H|]. split.
  - intros c. rewrite H. vm_compute. reflexivity.
  - intros cur items line Hp Hn Hnp.
    rewrite (step_fragment _ _ _ Hp Hn Hnp). cbn [fst snd].
    split; [reflexivity|]. split.
    + apply lookup_insert_ne. discriminate.
    + apply lookup_insert_eq.
Qed.

Lemma second_name_line_joins_description_witness :
  (step ({["name" := (txt "Soup")]}, []) (txt "Salad")).1 !! "name" = Some (txt "Soup").
Proof.
  destruct second_name_line_joins_description as (_ & _ & H).
  destruct (H {["name" := (txt "Soup")]} [] (txt "Salad")) as (_ & Hn & _).
  - vm_compute. reflexivity.
  - exists (txt "Soup"). vm_compute. reflexivity.
  - vm_compute. reflexivity.
  - rewrite Hn. vm_compute. reflexivity.
Defined.

(** C2 as stated fails: the one item of ["Soup"; "Salad"; "40 L.E"] is not
    named "Salad". *)
Lemma second_name_line_does_not_replace :
  ~ exists it, segment [txt "Soup"; txt "Salad"; txt "40 L.E"] = [it]
               /\ it !! "name" = Some (txt "Salad").
Proof.
  intros (it & Hs & Hn).
  assert (H : segment [txt "Soup"; txt "Salad"; txt "40 L.E"]
              = [<["price" := (txt "40 L.E")]>
                   (<["description" := (txt " Salad")]> {["name" := (txt "Soup")]})])
    by (vm_compute; reflexivity).
  rewrite H in Hs. inversion Hs; subst it.
  vm_compute in Hn. discriminate.
Qed.

(** C3: segmenting ["Grilled Chicken"; "Served with rice"; "120 L.E"] yields
    exactly one item: name "Grilled Chicken", description
    " Served with rice", price "120 L.E". *)
Theorem description_line_is_space_joined :
  segment [txt "Grilled Chicken"; txt "Served with rice"; txt "120 L.E"]
    = [<["price" := (txt "120 L.E")]>
         (<["description" := (txt " Served with rice")]>
            {["name" := (txt "Grilled Chicken")]})]
  /\ forall c,
       map (row_of c)
           (segment [txt "Grilled Chicken"; txt "Served with rice"; txt "120 L.E"])
       = [Row c (txt "Grilled Chicken") (txt " Served with rice") (txt "120 L.E")].
Proof.
  assert (H : segment [txt "Grilled Chicken"; txt "Served with rice"; txt "120 L.E"]
              = [<["price" := (txt "120 L.E")]>
                   (<["description" := (txt " Served with rice")]>
                      {["name" := (txt "Grilled Chicken")]})])
    by (vm_compute; reflexivity).
  split; [exact H|].
  intros c. rewrite H. vm_compute. reflexivity.
Qed.

(** C4, as the code has it: a noise token (a line equal, whatever the case,
    to "price", "l.e" or "le") matches neither price pattern, and processing
    it leaves the accumulator and the items unchanged whenever the
    accumulator is not a named item still waiting for its price; that
    covers the empty accumulator. *)
Theorem noise_token_ignored_without_pending_name
    (line : str) (cur : dict) (items : list dict) :
  lower line ∈ noise_tokens ->
  ~ (is_Some (cur !! "name") /\ cur !! "price" = None) ->
  search true price_pattern line = None
  /\ match_ true price_only_pattern line = None
  /\ step (cur, items) line = (cur, items).
Proof.
  intros Hn Hc.
  pose proof (noise_token_no_price line Hn) as Hp.
  assert (Hs : search true price_pattern line = None
               /\ match_ true price_only_pattern line = None).
  { unfold line_price in Hp.
    destruct (search true price_pattern line); [discriminate|].
    destruct (match_ true price_only_pattern line); [discriminate|].
    auto. }
  destruct Hs as [Hs1 Hs2]. split; [exact Hs1|]. split; [exact Hs2|].
  rewrite (step_unnamed _ _ _ Hp Hc).
  rewrite (bool_decide_eq_true_2 _ Hn). reflexivity.
Qed.

Lemma noise_token_ignored_without_pending_name_witness :
  step (∅, []) (txt "L.E") = (∅, []).
Proof.
  apply (noise_token_ignored_without_pending_name (txt "L.E") ∅ []).
  - vm_compute. apply list_elem_of_In. simpl. auto.
  - rewrite lookup_empty. intros [[x Hx] _]. discriminate.
Defined.

(** C4 as stated fails: "le" is a noise token and matches neither price
    pattern, yet after the name "Soup" it is appended to the description. *)
Lemma noise_token_after_name_is_appended :
  lower (txt "le") ∈ noise_tokens
  /\ search true price_pattern (txt "le") = None
  /\ match_ true price_only_pattern (txt "le") = None
  /\ step ({["name" := (txt "Soup")]}, []) (txt "le")
     = (<["description" := (txt " le")]> {["name" := (txt "Soup")]}, [])
  /\ step ({["name" := (txt "Soup")]}, []) (txt "le") <> ({["name" := (txt "Soup")]}, [])
  /\ segment [txt "Soup"; txt "le"; txt "40 L.E"]
     = [<["price" := (txt "40 L.E")]>
          (<["description" := (txt " le")]> {["name" := (txt "Soup")]})].
Proof.
  split; [apply list_elem_of_In; simpl; auto|].
  split; [vm_compute; reflexivity|].
  split; [vm_compute; reflexivity|].
  split; [vm_compute; reflexivity|].
  split; [|vm_compute; reflexivity].
  intros H. vm_compute in H. discriminate.
Qed.

(** C5: a price line that arrives while nothing is pending is consumed:
    nothing is emitted, the accumulator stays empty and the rest of the
    lines is segmented as if the price line were absent; ["150 L.E"] is
    such a sequence and yields no item. *)
Theorem orphan_price_is_dropped :
  (forall line p rest,
      line_price line = Some p ->
      step (∅, []) line = (∅, [])
      /\ run_lines [line] = (∅, [])
      /\ segment [line] = []
      /\ segment (line :: rest) = segment rest)
  /\ line_price (txt "150 L.E") = Some (txt "150")
  /\ run_lines [txt "150 L.E"] = (∅, [])
  /\ segment [txt "150 L.E"] = [].
Proof.
  split; [|repeat split; vm_compute; reflexivity].
  intros line p rest Hp.
  assert (Hs : step (∅, []) line = (∅, [])).
  { rewrite (step_price _ _ _ _ Hp).
    rewrite bool_decide_eq_true_2 by reflexivity. reflexivity. }
  split; [exact Hs|].
  unfold segment. rewrite !run_lines_fold. cbn [fold_left]. rewrite Hs.
  repeat split; reflexivity.
Qed.

Lemma orphan_price_is_dropped_witness :
  segment [txt "99 LE"; txt "Tea"; txt "15 LE"] = segment [txt "Tea"; txt "15 LE"].
Proof.
  destruct orphan_price_is_dropped as [H _].
  destruct (H (txt "99 LE") (txt "99") [txt "Tea"; txt "15 LE"]) as (_ & _ & _ & Hs).
  - vm_compute. reflexivity.
  - exact Hs.
Defined.

(** C10: a line the general price pattern matches is consumed whole as a
    price event.  The amount is the non-empty run of digits captured as
    group 2; when an item is pending it is emitted with the price
    "<digits> L.E" and with its own name and description, otherwise nothing
    is emitted; either way the accumulator is empty afterwards.  Nothing
    else of the line is kept: two such lines with the same amount act alike
    on every state and give the same items in every sequence. *)
Theorem price_line_consumed_whole
    (line : str) (m : groups) (cur : dict) (items : list dict) :
  search true price_pattern line = Some m ->
  exists digits : str,
    m !! 2%nat = Some digits
    /\ digits <> []
    /\ Forall (fun c => is_digit c = true) digits
    /\ (exists before after,
          line = before ++ digits ++ after)
    /\ step (cur, items) line
       = (if bool_decide (cur = ∅) then (∅, items)
          else (∅, items ++ [<["price" := digits ++ (txt " L.E")]> cur]))
    /\ (<["price" := digits ++ (txt " L.E")]> cur) !! "name" = cur !! "name"
    /\ (<["price" := digits ++ (txt " L.E")]> cur) !! "description"
       = cur !! "description"
    /\ (forall line' m',
          search true price_pattern line' = Some m' ->
          m' !! 2%nat = Some digits ->
          (forall st, step st line' = step st line)
          /\ forall pre post,
               segment (pre ++ line' :: post) = segment (pre ++ line :: post)).
Proof.
  intros Hs.
  destruct (price_pattern_amount _ _ Hs) as (b & d & a & Hl & Hd & Hf & Hm).
  assert (Hp : line_price line = Some d)
    by (unfold line_price, group; rewrite Hs, Hm; reflexivity).
  exists d.
  split; [exact Hm|]. split; [|split; [|split; [|split; [|split; [|split]]]]].
  - exact Hd.
  - exact Hf.
  - exists b, a. exact Hl.
  - rewrite (step_price _ _ _ _ Hp).
    case_bool_decide as Hc; [rewrite Hc|]; reflexivity.
  - apply lookup_insert_ne. discriminate.
  - apply lookup_insert_ne. discriminate.
  - intros line' m' Hs' Hm'.
    assert (Hp' : line_price line' = Some d)
      by (unfold line_price, group; rewrite Hs', Hm'; reflexivity).
    assert (Hst : forall st, step st line' = step st line).
    { intros [c i]. rewrite (step_price _ _ _ _ Hp), (step_price _ _ _ _ Hp').
      reflexivity. }
    split; [exact Hst|].
    intros pre post. unfold segment. rewrite !run_lines_fold.
    rewrite !fold_step_app. cbn [fold_left]. rewrite Hst. reflexivity.
Qed.

Lemma price_line_consumed_whole_witness :
  exists digits : str,
    (<[3%nat := (txt "le")]> (<[2%nat := (txt "2")]> (<[1%nat := []]> ∅)) : groups)
      !! 2%nat = Some digits
    /\ step ({["name" := (txt "Soup")]}, []) (txt "Kofta 2 legs")
       = (∅, [<["price" := digits ++ (txt " L.E")]> {["name" := (txt "Soup")]}]).
Proof.
  destruct (price_line_consumed_whole (txt "Kofta 2 legs")
              (<[3%nat := (txt "le")]> (<[2%nat := (txt "2")]> (<[1%nat := []]> ∅)))
              {["name" := (txt "Soup")]} [])
    as (digits & Hm & _ & _ & _ & Hstep & _).
  - vm_compute. reflexivity.
  - exists digits. split; [exact Hm|].
    rewrite Hstep. rewrite bool_decide_eq_false_2; [reflexivity|].
    intros H. apply (f_equal (fun d : dict => d !! "name")) in H.
    vm_compute in H. discriminate.
Defined.

(** The patterns read a line with the character classes of [re]: a
    no-break space between the amount and the currency is white space, so
    the first amount of such a line is the price, and the digits of any
    script are digits. *)
Example no_break_space_before_currency :
  line_price (txt "7" ++ [160%N] ++ txt "LE 5 LE") = Some (txt "7")
  /\ is_price_line (txt "120" ++ [160%N] ++ txt "L.E") = true
  /\ segment [txt "Tea"; txt "120" ++ [160%N] ++ txt "L.E"]
     = [<["price" := txt "120 L.E"]> {["name" := txt "Tea"]}].
Proof. vm_compute. repeat split; reflexivity. Qed.

Example arabic_indic_amount :
  line_price ([1633; 1634; 1632]%N ++ txt " L.E")
  = Some [1633; 1634; 1632]%N.
Proof. vm_compute. reflexivity. Qed.

End SegmenterFacts.

(** ** The crawl *)

Module CrawlFacts.
Import Text Soup Segmenter Crawl SegmenterFacts.

(** The lines handed to the segmenter are never empty. *)
Lemma text_lines_nonempty (text : str) :
  Forall (fun line => line <> []) (text_lines text).
Proof.
  unfold text_lines. apply Forall_forall. intros line Hl.
  apply list_elem_of_fmap in Hl as (raw & -> & Hraw).
  apply list_elem_of_In, filter_In in Hraw as [_ Hraw].
  apply negb_true_iff, bool_decide_eq_false in Hraw. exact Hraw.
Qed.

(** Whatever the text of a panel body, its rows have a name and a price. *)
Lemma panel_rows_have_name_and_price (panel : node) (r : row) :
  r ∈ panel_rows panel -> item_name r <> [] /\ price r <> [].
Proof.
  unfold panel_rows.
  destruct (find panel ["div"] (Some "vc_tta-panel-body")) as [body|];
    [|intros H; apply elem_of_nil in H; contradiction].
  set (lines := text_lines _). set (c := match _ with Some _ => _ | None => _ end).
  intros Hr.
  pose proof (SegmenterFacts.fold_step_preserves lines (∅, [])
                (text_lines_nonempty _) pending_empty (List.Forall_nil _))
    as [_ Hitems].
  rewrite <- run_lines_fold in Hitems.
  rewrite <- (segment_is_loop_items lines (text_lines_nonempty _)) in Hitems.
  apply list_elem_of_fmap in Hr as (it & -> & Hit).
  rewrite Forall_forall in Hitems.
  destruct (Hitems it Hit) as (n & p & Hn & Hne & Hp & Hpe).
  unfold row_of. simpl. rewrite Hn, Hp. simpl. auto.
Qed.

Section WithEnv.
Variable E : Env.

Lemma get_soup_plain_failure (url : string) (w w' : world E) :
  fetch_fails E url w w' -> get_soup E false url w = (Ok None, w').
Proof.
  unfold get_soup. intros [(resp & -> & Hst)| ->]; [|reflexivity].
  destruct (Z.eqb_spec (status_code resp) 200); [contradiction|reflexivity].
Qed.

(** On the plain fetch a failed page ends the crawl with the rows gathered
    so far; no exception leaves it. *)
Lemma plain_fetch_failure_returns_rows
    (depth : nat) (url : string) (rows : list row) (w w' : world E) :
  fetch_fails E url w w' ->
  scrape_page E false (S depth) url rows w = Returned rows w'.
Proof.
  intros H. cbn [scrape_page].
  rewrite (get_soup_plain_failure _ _ _ H). reflexivity.
Qed.

(** On the plain fetch a failed first page gives no rows. *)
Lemma plain_first_page_failure
    (depth : nat) (url : string) (w w' : world E) :
  fetch_fails E url w w' ->
  scrape_menu E false (S depth) url w = Returned [] w'.
Proof. apply plain_fetch_failure_returns_rows. Qed.

(** Linked pages that outnumber the nested calls the recursion limit
    leaves room for: the crawl ends by [RecursionError] with the rows of
    the pages it got to. *)
Lemma crawl_beyond_recursion_limit
    (use_selenium : bool) (w w1 : world E) (url url1 : string)
    (soups : list node) :
  pages_fetched E use_selenium w url soups w1 url1 ->
  forall (depth : nat) (rows : list row),
    (depth <= length soups)%nat ->
    exists w',
      scrape_page E use_selenium depth url rows w
      = Raised RecursionError
          (rows ++ flat_map page_rows (take depth soups)) w'.
Proof.
  intros Hp.
  induction Hp as [w url|w w1 w3 url url1 url2 soup soups Hg Hn Hp IH];
    intros depth rows Hdepth.
  - destruct depth as [|depth]; [|cbn [length] in Hdepth; lia].
    exists w. cbn [scrape_page take flat_map]. rewrite app_nil_r.
    reflexivity.
  - destruct depth as [|depth].
    + exists w. cbn [scrape_page take flat_map]. rewrite app_nil_r.
      reflexivity.
    + cbn [length] in Hdepth.
      destruct (IH depth (rows ++ page_rows soup)) as [w' Hr]; [lia|].
      exists w'. cbn [scrape_page]. rewrite Hg, Hn, Hr.
      cbn [take flat_map]. rewrite <- app_assoc. reflexivity.
Qed.

(** On the plain fetch, pages fetched in a row and then a failed fetch
    give the rows of the fetched pages, in page order, when the recursion
    limit leaves room for one nested call per page and one for the failed
    fetch; when it does not, the crawl ends by [RecursionError] instead and
    returns nothing. *)
Lemma plain_crawl_stops_at_failed_page
    (w w1 w2 : world E) (url url1 : string) (soups : list node) :
  pages_fetched E false w url soups w1 url1 ->
  fetch_fails E url1 w1 w2 ->
  forall (depth : nat) (rows : list row),
    ((length soups < depth)%nat ->
     scrape_page E false depth url rows w
     = Returned (rows ++ flat_map page_rows soups) w2)
    /\ ((depth <= length soups)%nat ->
        exists w',
          scrape_page E false depth url rows w
          = Raised RecursionError
              (rows ++ flat_map page_rows (take depth soups)) w').
Proof.
  intros Hp Hf depth rows. split;
    [|apply (crawl_beyond_recursion_limit false w w1 url url1 soups Hp)].
  revert depth rows.
  induction Hp as [w url|w w1 w3 url url1 url2 soup soups Hg Hn Hp IH];
    intros depth rows Hdepth.
  - destruct depth as [|depth]; [simpl in Hdepth; lia|].
    rewrite (plain_fetch_failure_returns_rows _ _ _ _ _ Hf).
    simpl. rewrite app_nil_r. reflexivity.
  - destruct depth as [|depth]; [simpl in Hdepth; lia|].
    cbn [scrape_page]. rewrite Hg, Hn.
    rewrite (IH Hf depth); [|simpl in Hdepth; lia]. cbn [flat_map].
    rewrite <- app_assoc. reflexivity.
Qed.

(** C9: with the browser fetch nothing guards the crawl: when the browser
    session fails on the first page, the exception leaves [scrape_menu]
    instead of an empty list of rows being returned; on a later page it
    leaves the crawl as well, and the rows gathered so far are not
    returned. *)
Theorem browser_failure_escapes
    (depth : nat) (url : string) (rows : list row) (w w' : world E)
    (e : exn) :
  chrome_page_source E url w = (Raise e, w') ->
  scrape_menu E true (S depth) url w = Raised e [] w'
  /\ scrape_page E true (S depth) url rows w = Raised e rows w'.
Proof.
  intros H. unfold scrape_menu. cbn [scrape_page]. unfold get_soup.
  rewrite H.
  split; reflexivity.
Qed.
End WithEnv.

Lemma browser_failure_escapes_witness :
  scrape_menu unreachable_site true 1 "https://bonappetit.com.eg/menu-m/"
              (tt : world unreachable_site)
  = Raised WebDriverException [] (tt : world unreachable_site).
Proof.
  refine (proj1 (browser_failure_escapes unreachable_site 0
                   "https://bonappetit.com.eg/menu-m/" []
                   (tt : world unreachable_site) (tt : world unreachable_site)
                   WebDriverException _)).
  reflexivity.
Defined.

(** The plain fetch of an unreachable site returns no rows. *)
Example plain_unreachable_site :
  scrape_menu unreachable_site false 1 "https://bonappetit.com.eg/menu-m/"
              (tt : world unreachable_site)
  = Returned [] (tt : world unreachable_site).
Proof. reflexivity. Qed.

End CrawlFacts.

(** ** JavaScript heaviness and the score *)

Module AnalysisFacts.
Import Text Soup Crawl Analysis.

(** Induction over a page, with the hypothesis for every child of a tag. *)
Lemma node_rect_children (P : node -> Prop) :
  (forall text, P (NavigableString text)) ->
  (forall name class_ href contents,
      Forall P contents -> P (Tag name class_ href contents)) ->
  forall n, P n.
Proof.
  intros Hs Ht.
  fix IH 1. intros [name class_ href contents|text]; [|apply Hs].
  apply Ht. induction contents as [|c cs IHcs]; constructor; [apply IH|exact IHcs].
Qed.

Lemma tag_matches_name (name : string) (n : node) :
  tag_matches [name] None n
  = match n with
    | Tag nm _ _ _ => String.eqb nm name
    | NavigableString _ => false
    end.
Proof.
  destruct n as [nm cl h cs|t]; [|reflexivity]. simpl.
  rewrite andb_true_r.
  destruct (String.eqb_spec nm name) as [->|Hne].
  - apply bool_decide_eq_true_2. apply list_elem_of_In. simpl. auto.
  - apply bool_decide_eq_false_2. intros H.
    apply list_elem_of_In in H. simpl in H. destruct H as [H|[]]. congruence.
Qed.

(** [find_all] with one name finds as many elements as the page has. *)
Lemma find_all_count (name : string) (n : node) :
  length (find_all n [name] None) = count_elements name n.
Proof.
  unfold find_all.
  induction n as [text|nm cl h cs IH] using node_rect_children;
    [reflexivity|].
  simpl. induction IH as [|c cs Hc _ IHcs]; [reflexivity|].
  cbn [List.filter]. rewrite tag_matches_name.
  rewrite List.filter_app, <- IHcs, <- Hc.
  destruct c as [nm' cl' h' cs'|t]; simpl.
  - destruct (String.eqb nm' name); simpl; rewrite length_app; lia.
  - reflexivity.
Qed.

(** [find_all] finds nothing exactly when no element below has one of the
    names. *)
Lemma find_all_nil (names : list string) (n : node) :
  find_all n names None = []
  <-> forall name e, name ∈ names -> ~ element_below n name e.
Proof.
  unfold find_all, element_below. split.
  - intros H name e Hin (He & cl & h & cs & ->).
    assert (Hf : In (Tag name cl h cs)
                    (List.filter (tag_matches names None) (descendants n))).
    { apply filter_In. split; [exact He|]. simpl.
      rewrite andb_true_r. apply bool_decide_eq_true_2. exact Hin. }
    rewrite H in Hf. contradiction.
  - intros H.
    destruct (List.filter _ _) as [|e l] eqn:Hf; [reflexivity|].
    assert (He : In e (List.filter (tag_matches names None) (descendants n)))
      by (rewrite Hf; left; reflexivity).
    apply filter_In in He as [He Hm].
    destruct e as [nm cl h cs|t]; [|discriminate].
    simpl in Hm. rewrite andb_true_r in Hm. apply bool_decide_eq_true in Hm.
    exfalso. apply (H nm (Tag nm cl h cs) Hm). eauto 6.
Qed.

(** C8: a page is JavaScript heavy exactly when it has more than 10 script
    elements or no element at all called div, p, span or table; so a page
    with exactly 10 script elements and one such element is not. *)
Theorem js_heavy_iff (E : Env) (html_content : str) :
  let soup := BeautifulSoup E html_content in
  (is_javascript_heavy E html_content = true
   <-> ((10 < count_elements "script" soup)%nat
        \/ forall name e, name ∈ content_tags -> ~ element_below soup name e))
  /\ (count_elements "script" soup = 10%nat ->
      (exists name e, name ∈ content_tags /\ element_below soup name e) ->
      is_javascript_heavy E html_content = false).
Proof.
  intros soup.
  assert (Hiff : is_javascript_heavy E html_content = true
     <-> ((10 < count_elements "script" soup)%nat
          \/ forall name e, name ∈ content_tags -> ~ element_below soup name e)).
  { unfold is_javascript_heavy, is_javascript_heavy_soup. fold soup.
    rewrite find_all_count, <- find_all_nil.
    destruct (Nat.ltb_spec 10 (count_elements "script" soup)) as [Hlt|Hge].
    - split; auto.
    - destruct (find_all soup content_tags None) as [|e l].
      + split; auto.
      + split; [discriminate|]. intros [Hlt|Hnil]; [lia|discriminate]. }
  split; [exact Hiff|].
  intros Hten (name & e & Hin & He).
  destruct (is_javascript_heavy E html_content) eqn:Hjs; [|reflexivity].
  exfalso. destruct (proj1 Hiff eq_refl) as [Hlt|Hnone]; [lia|].
  exact (Hnone name e Hin He).
Qed.

Lemma js_heavy_iff_witness :
  is_javascript_heavy (static_site (page_with_scripts 10)) [] = false.
Proof.
  apply (js_heavy_iff (static_site (page_with_scripts 10)) []).
  - reflexivity.
  - exists "p", (Tag "p" [] None [NavigableString (txt "Menu")]). split.
    + apply list_elem_of_In. simpl. auto.
    + split; [|eauto]. simpl. auto 20.
Defined.

(** C6: the score is the sum of four independent contributions: 25 for a
    robots file, 15 for a crawl delay, 30 for a sitemap and 30 for a page
    that is not JavaScript heavy. *)
Theorem score_is_sum_of_contributions
    (has_robots : bool) (crawl_delays sitemaps : list str)
    (js_heavy : bool) :
  calculate_crawlability_score has_robots crawl_delays sitemaps js_heavy
  = ((if has_robots then 25 else 0)
     + (if bool_decide (crawl_delays <> []) then 15 else 0)
     + (if bool_decide (sitemaps <> []) then 30 else 0)
     + (if js_heavy then 0 else 30))%Z.
Proof.
  unfold calculate_crawlability_score.
  destruct has_robots, crawl_delays, sitemaps, js_heavy; reflexivity.
Qed.

(** C7: turning any one input of the score from absent to present, or from
    JavaScript heavy to not, with the other three fixed, never lowers the
    score, and the score always lies between 0 and 100. *)
Theorem score_monotone_and_bounded
    (has_robots : bool) (crawl_delays sitemaps : list str)
    (js_heavy : bool) (delay sitemap : str) :
  (calculate_crawlability_score false crawl_delays sitemaps js_heavy
   <= calculate_crawlability_score true crawl_delays sitemaps js_heavy)%Z
  /\ (calculate_crawlability_score has_robots [] sitemaps js_heavy
      <= calculate_crawlability_score has_robots (delay :: crawl_delays)
           sitemaps js_heavy)%Z
  /\ (calculate_crawlability_score has_robots crawl_delays [] js_heavy
      <= calculate_crawlability_score has_robots crawl_delays
           (sitemap :: sitemaps) js_heavy)%Z
  /\ (calculate_crawlability_score has_robots crawl_delays sitemaps true
      <= calculate_crawlability_score has_robots crawl_delays sitemaps false)%Z
  /\ (0 <= calculate_crawlability_score has_robots crawl_delays sitemaps
             js_heavy <= 100)%Z.
Proof.
  unfold calculate_crawlability_score.
  destruct has_robots, crawl_delays, sitemaps, js_heavy; simpl; lia.
Qed.

End AnalysisFacts.

(** ** More on the segmenter *)

Module MenuFacts.
Import Text Re Segmenter ReFacts CharFacts SegmenterFacts Menu.

Lemma not_some_and_none (cur : dict) :
  cur = ∅ -> ~ (is_Some (cur !! "name") /\ cur !! "price" = None).
Proof. intros -> [[x Hx] _]. rewrite lookup_empty in Hx. discriminate. Qed.

(** Whatever the line, a pending item stays empty or named and unpriced. *)
Lemma step_unpriced (st : dict * list dict) (line : str) :
  unpriced st.1 -> unpriced (step st line).1.
Proof.
  destruct st as [cur items]. cbn [fst]. intros Hu.
  destruct (line_price line) as [p|] eqn:Hp.
  - rewrite (step_price _ _ _ _ Hp).
    case_bool_decide as Hc; cbn [fst]; [exact Hu|left; reflexivity].
  - destruct Hu as [->|[Hn Hnp]].
    + rewrite step_unnamed; [|assumption|apply not_some_and_none; reflexivity].
      case_bool_decide; cbn [fst]; [left; reflexivity|].
      right. split.
      * exists line. apply lookup_singleton_eq.
      * apply lookup_singleton_ne. discriminate.
    + rewrite step_fragment by assumption. cbn [fst]. right. split.
      * rewrite lookup_insert_ne by discriminate. exact Hn.
      * rewrite lookup_insert_ne by discriminate. exact Hnp.
Qed.

Lemma fold_unpriced (lines : list str) :
  forall st : dict * list dict,
    unpriced st.1 -> unpriced (fold_left step lines st).1.
Proof.
  induction lines as [|line lines IH]; intros st Hu; cbn [fold_left];
    [exact Hu|].
  apply IH, step_unpriced, Hu.
Qed.

Lemma unpriced_no_flush (cur : dict) :
  unpriced cur ->
  negb (bool_decide (cur = ∅)) && bool_decide (is_Some (cur !! "price")) = false.
Proof.
  intros [->|[_ Hp]].
  - rewrite bool_decide_eq_true_2 by reflexivity. reflexivity.
  - rewrite (bool_decide_eq_false_2 (is_Some _)).
    + apply andb_false_r.
    + rewrite Hp. intros [? ?]. discriminate.
Qed.

Lemma run_lines_unpriced (lines : list str) : unpriced (run_lines lines).1.
Proof. rewrite run_lines_fold. apply fold_unpriced. left. reflexivity. Qed.

Lemma segment_run_items (lines : list str) :
  segment lines = (run_lines lines).2.
Proof.
  pose proof (run_lines_unpriced lines) as Hu. unfold segment.
  destruct (run_lines lines) as [cur items]. cbn [fst snd] in *.
  rewrite (unpriced_no_flush _ Hu). reflexivity.
Qed.

(** The flush after the loop never fires: for every sequence of lines, empty
    lines included, the loop ends with a pending item that has no price, so
    the items are those appended inside the loop, at most one per price
    line. *)
Theorem flush_after_loop_is_idle (lines : list str) :
  (run_lines lines).1 !! "price" = None
  /\ segment lines = (run_lines lines).2
  /\ (length (segment lines) <= length (List.filter is_price_line lines))%nat.
Proof.
  pose proof (run_lines_unpriced lines) as Hu.
  pose proof (segment_run_items lines) as Hs.
  split; [|split; [exact Hs|]].
  - destruct Hu as [->|[_ Hp]]; [apply lookup_empty|exact Hp].
  - rewrite Hs, run_lines_fold.
    pose proof (fold_step_count lines (∅, [])) as Hc.
    cbn [snd length] in Hc. lia.
Qed.

(** The items appended so far never influence what a line does. *)
Lemma step_items (cur : dict) (items : list dict) (line : str) :
  step (cur, items) line
  = ((step (cur, []) line).1, items ++ (step (cur, []) line).2).
Proof.
  unfold step. destruct (line_price line) as [p|].
  - case_bool_decide; cbn [fst snd]; [rewrite app_nil_r|]; reflexivity.
  - repeat match goal with
           | |- context [if ?b then _ else _] => destruct b
           end; cbn [fst snd]; rewrite app_nil_r; reflexivity.
Qed.

Lemma fold_step_items (lines : list str) :
  forall (cur : dict) (items : list dict),
    fold_left step lines (cur, items)
    = ((fold_left step lines (cur, [])).1,
       items ++ (fold_left step lines (cur, [])).2).
Proof.
  induction lines as [|line lines IH]; intros cur items; cbn [fold_left].
  - cbn [fst snd]. rewrite app_nil_r. reflexivity.
  - rewrite step_items.
    destruct (step (cur, []) line) as [c i]. cbn [fst snd].
    rewrite (IH c (items ++ i)), (IH c i). cbn [fst snd].
    rewrite app_assoc. reflexivity.
Qed.

Lemma step_price_resets (st : dict * list dict) (line p : str) :
  line_price line = Some p -> (step st line).1 = ∅.
Proof.
  destruct st as [cur items]. intros Hp. rewrite (step_price _ _ _ _ Hp).
  case_bool_decide as Hc; cbn [fst]; [exact Hc|reflexivity].
Qed.

(** A price line closes what came before it: the lines after it are
    segmented on their own, and the items of the whole are the items up to
    the price line followed by the items of the rest. *)
Theorem price_line_splits_segmentation
    (before after : list str) (line p : str) :
  line_price line = Some p ->
  segment (before ++ line :: after)
  = segment (before ++ [line]) ++ segment after.
Proof.
  intros Hp.
  rewrite (segment_run_items (before ++ line :: after)).
  rewrite (segment_run_items (before ++ [line])).
  rewrite (segment_run_items after).
  rewrite !run_lines_fold, !fold_step_app. cbn [fold_left].
  destruct (step (fold_left step before (∅, [])) line) as [c i] eqn:Hst.
  assert (Hc : c = ∅).
  { pose proof (step_price_resets (fold_left step before (∅, [])) line p Hp)
      as H. rewrite Hst in H. exact H. }
  subst c. rewrite fold_step_items. reflexivity.
Qed.

Lemma price_line_splits_segmentation_witness :
  segment ([txt "Tea"; txt "hot"] ++ (txt "15 LE") :: [txt "Cake"; txt "20 LE"])
  = segment ([txt "Tea"; txt "hot"] ++ [txt "15 LE"]) ++ segment [txt "Cake"; txt "20 LE"].
Proof.
  apply (price_line_splits_segmentation [txt "Tea"; txt "hot"] [txt "Cake"; txt "20 LE"]
           (txt "15 LE") (txt "15")).
  vm_compute. reflexivity.
Defined.

Lemma is_price_line_false (line : str) :
  is_price_line line = false -> line_price line = None.
Proof.
  unfold is_price_line. destruct (line_price line); [discriminate|reflexivity].
Qed.

(** Lines without a price after a name only grow the description. *)
Lemma fold_descriptions (descs : list str) :
  forall (cur : dict) (items : list dict),
    is_Some (cur !! "name") -> cur !! "price" = None ->
    Forall (fun d => is_price_line d = false) descs ->
    exists cur',
      fold_left step descs (cur, items) = (cur', items)
      /\ cur' !! "name" = cur !! "name"
      /\ cur' !! "price" = None
      /\ default [] (cur' !! "description")
         = default [] (cur !! "description") ++ space_joined descs.
Proof.
  induction descs as [|d descs IH]; intros cur items Hn Hp Hd;
    cbn [fold_left space_joined].
  - exists cur. repeat split; auto. rewrite app_nil_r. reflexivity.
  - inversion Hd as [|? ? Hd1 Hd2]; subst.
    rewrite (step_fragment _ _ _ (is_price_line_false _ Hd1) Hn Hp).
    destruct (IH (<["description" :=
                      default [] (cur !! "description") ++ (txt " ") ++ d]> cur)
                 items) as (cur' & Hf & Hn' & Hp' & Hd'); [| |exact Hd2|].
    + rewrite lookup_insert_ne by discriminate. exact Hn.
    + rewrite lookup_insert_ne by discriminate. exact Hp.
    + exists cur'. split; [exact Hf|].
      rewrite lookup_insert_ne in Hn' by discriminate.
      rewrite lookup_insert_eq in Hd'. cbn [default] in Hd'.
      repeat split; auto.
      rewrite Hd'. unfold id. rewrite <- !app_assoc. reflexivity.
Qed.

(** A well-formed block gives exactly its item: a line that can start an
    item, then any number of lines without a price, then a price line yield
    one row, with the first line as name, the lines in between joined each
    after a space as description (none gives the empty description) and
    "<amount> L.E" as price. *)
Theorem block_yields_its_item
    (name : str) (descs : list str) (line amount c : str) :
  starts_item name = true ->
  Forall (fun d => is_price_line d = false) descs ->
  line_price line = Some amount ->
  map (row_of c) (segment (name :: descs ++ [line]))
  = [Row c name (space_joined descs) (amount ++ (txt " L.E"))].
Proof.
  intros Hs Hd Hp.
  apply andb_true_iff in Hs as [Hnp Hnn].
  apply negb_true_iff in Hnp, Hnn.
  apply bool_decide_eq_false in Hnn.
  rewrite (segment_run_items (name :: descs ++ [line])).
  rewrite run_lines_fold. cbn [fold_left].
  rewrite step_unnamed;
    [|apply is_price_line_false, Hnp|apply not_some_and_none; reflexivity].
  rewrite (bool_decide_eq_false_2 _ Hnn).
  rewrite fold_step_app.
  destruct (fold_descriptions descs {["name" := name]} [])
    as (cur' & -> & Hn' & Hp' & Hd').
  { exists name. apply lookup_singleton_eq. }
  { apply lookup_singleton_ne. discriminate. }
  { exact Hd. }
  rewrite lookup_singleton_eq in Hn'.
  rewrite lookup_singleton_ne in Hd' by discriminate. cbn [default] in Hd'.
  cbn [fold_left]. rewrite (step_price _ _ _ _ Hp).
  rewrite bool_decide_eq_false_2.
  - cbn [snd app map]. unfold row_of.
    rewrite !lookup_insert_ne by discriminate. rewrite lookup_insert_eq.
    rewrite Hn', Hd'. reflexivity.
  - intros ->. rewrite lookup_empty in Hn'. discriminate.
Qed.

Lemma block_yields_its_item_witness :
  map (row_of (txt "Mains")) (segment ((txt "Koshary") :: [txt "lentils"; txt "rice"] ++ [txt "45 LE"]))
  = [Row (txt "Mains") (txt "Koshary") (txt " lentils rice") (txt "45 L.E")].
Proof.
  apply (block_yields_its_item (txt "Koshary") [txt "lentils"; txt "rice"] (txt "45 LE") (txt "45")
           (txt "Mains")).
  - vm_compute. reflexivity.
  - repeat constructor.
  - vm_compute. reflexivity.
Defined.

Lemma step_names (cur : dict) (items : list dict) (line : str)
    (seen : list str) :
  unpriced cur ->
  map (fun it : dict => default [] (it !! "name")) items ++ pending_name cur
    `sublist_of` seen ->
  map (fun it : dict => default [] (it !! "name")) (step (cur, items) line).2
    ++ pending_name (step (cur, items) line).1
    `sublist_of` seen ++ List.filter starts_item [line].
Proof.
  intros Hu Hsub. cbn [List.filter]. unfold starts_item, is_price_line.
  destruct (line_price line) as [p|] eqn:Hp.
  - cbn [negb andb]. rewrite app_nil_r.
    rewrite (step_price _ _ _ _ Hp).
    case_bool_decide as Hc; cbn [fst snd]; [exact Hsub|].
    destruct Hu as [->|[[n Hn] _]]; [congruence|].
    unfold pending_name in *. rewrite Hn in Hsub. rewrite lookup_empty.
    rewrite map_app, app_nil_r. cbn [map].
    rewrite lookup_insert_ne by discriminate. rewrite Hn. exact Hsub.
  - cbn [negb andb]. destruct Hu as [->|[Hn Hnp]].
    + rewrite step_unnamed;
        [|assumption|apply not_some_and_none; reflexivity].
      unfold pending_name in Hsub. rewrite lookup_empty, app_nil_r in Hsub.
      case_bool_decide as Hnoise; cbn [negb fst snd].
      * unfold pending_name. rewrite lookup_empty, !app_nil_r. exact Hsub.
      * unfold pending_name. rewrite lookup_singleton_eq.
        apply sublist_app; [exact Hsub|reflexivity].
    + rewrite step_fragment by assumption. cbn [fst snd].
      unfold pending_name in *.
      rewrite lookup_insert_ne by discriminate.
      apply sublist_inserts_r. exact Hsub.
Qed.

Lemma fold_names (lines : list str) :
  forall (st : dict * list dict) (seen : list str),
    unpriced st.1 ->
    map (fun it : dict => default [] (it !! "name")) st.2 ++ pending_name st.1
      `sublist_of` seen ->
    map (fun it : dict => default [] (it !! "name"))
        (fold_left step lines st).2
      ++ pending_name (fold_left step lines st).1
      `sublist_of` seen ++ List.filter starts_item lines.
Proof.
  induction lines as [|line lines IH]; intros st seen Hu Hsub;
    cbn [fold_left].
  - cbn [List.filter]. rewrite app_nil_r. exact Hsub.
  - destruct st as [cur items]. cbn [fst snd] in Hu, Hsub.
    pose proof (step_names cur items line seen Hu Hsub) as Hstep.
    pose proof (step_unpriced (cur, items) line Hu) as Hu'.
    specialize (IH _ _ Hu' Hstep).
    rewrite <- app_assoc in IH.
    replace (List.filter starts_item [line] ++ List.filter starts_item lines)
      with (List.filter starts_item (line :: lines)) in IH; [exact IH|].
    cbn [List.filter]. destruct (starts_item line); reflexivity.
Qed.

(** No name is made up, moved or used twice: the names of the items, in the
    order of the items, are lines of the input that are neither price lines
    nor noise tokens, in the order of the input. *)
Theorem item_names_are_lines_in_order (lines : list str) (c : str) :
  map item_name (map (row_of c) (segment lines))
    `sublist_of` List.filter starts_item lines.
Proof.
  rewrite (segment_run_items lines).
  rewrite run_lines_fold, map_map. cbn [row_of item_name].
  pose proof (fold_names lines (∅, []) []) as H. cbn [fst snd map app] in H.
  etrans; [|apply H].
  - apply sublist_inserts_r. reflexivity.
  - left. reflexivity.
  - unfold pending_name. rewrite lookup_empty. reflexivity.
Qed.

(** The greedy iteration stops at the first character that does not fit:
    when the rest of the pattern succeeds there, that is the result. *)
Lemma star_longest {A : Type} (ic : bool) (a : atom) (w : str) :
  forall (pos : nat) (s' : str) (k : nat -> str -> option A)
         (x : A),
    Forall (fun c => atom_match ic a c = true) w ->
    match s' with [] => True | c :: _ => atom_match ic a c = false end ->
    k (pos + length w)%nat s' = Some x ->
    star ic a pos (w ++ s') k = Some x.
Proof.
  induction w as [|c w IH]; intros pos s' k x Hw Hs Hk.
  - cbn [app length] in *. rewrite Nat.add_0_r in Hk.
    destruct s' as [|c s']; cbn [star]; [exact Hk|]. rewrite Hs. exact Hk.
  - inversion Hw as [|? ? Hc Hw']; subst. cbn [app star]. rewrite Hc.
    rewrite (IH (S pos) s' k x Hw' Hs); [reflexivity|].
    rewrite <- Hk. f_equal. cbn [length]. lia.
Qed.

Lemma star_complete {A : Type} (ic : bool) (a : atom) (w : str) :
  forall (pos : nat) (s' : str) (k : nat -> str -> option A),
    Forall (fun c => atom_match ic a c = true) w ->
    is_Some (k (pos + length w)%nat s') ->
    is_Some (star ic a pos (w ++ s') k).
Proof.
  induction w as [|c w IH]; intros pos s' k Hw Hk.
  - cbn [app length] in *. rewrite Nat.add_0_r in Hk.
    destruct s' as [|c s']; cbn [star]; [exact Hk|].
    destruct (atom_match ic a c); [|exact Hk].
    destruct (star ic a (S pos) s' k); [eauto|exact Hk].
  - inversion Hw as [|? ? Hc Hw']; subst. cbn [app star]. rewrite Hc.
    destruct (IH (S pos) s' k Hw') as [x Hx].
    + replace (S pos + length w)%nat with (pos + length (c :: w))%nat
        by (cbn [length]; lia). exact Hk.
    + rewrite Hx. eauto.
Qed.

(** The matcher finds a match whenever the pattern allows one. *)
Lemma run_complete {A : Type} (ic : bool) (r : regex) :
  forall (pos : nat) (g : groups) (w s' : str) (g' : groups)
         (k : nat -> str -> groups -> option A),
    derives ic r pos g w s' g' ->
    is_Some (k (pos + length w)%nat s' g') ->
    is_Some (run ic r pos (w ++ s') g k).
Proof.
  induction r as [|a|a|r1 IH1 r2 IH2|r1 IH1 r2 IH2|n r IH| |];
    intros pos g w s' g' k D Hk; cbn [derives] in D; cbn [run].
  - destruct D as [-> ->]. cbn [app length] in *.
    rewrite Nat.add_0_r in Hk. exact Hk.
  - destruct D as (c & -> & Hc & ->). cbn [app length] in *. rewrite Hc.
    replace (S pos) with (pos + 1)%nat by lia. exact Hk.
  - destruct D as [Hw ->]. apply star_complete; assumption.
  - destruct D as (w1 & w2 & g1 & -> & D1 & D2).
    rewrite <- app_assoc. apply (IH1 _ _ _ _ g1); [exact D1|].
    apply (IH2 _ _ _ _ g'); [exact D2|].
    rewrite length_app, Nat.add_assoc in Hk. exact Hk.
  - destruct D as [D|D].
    + destruct (IH1 _ _ _ _ _ k D Hk) as [x Hx]. rewrite Hx. eauto.
    + destruct (run ic r1 pos (w ++ s') g k); [eauto|].
      apply (IH2 _ _ _ _ g'); assumption.
  - destruct D as (g1 & D & ->).
    apply (IH _ _ _ _ g1); [exact D|].
    replace (pos + length w - pos)%nat with (length w) by lia.
    rewrite take_app_length. exact Hk.
  - destruct D as (-> & -> & ->). cbn [app length] in *.
    rewrite Nat.add_0_r in Hk. exact Hk.
  - destruct D as (-> & -> & Hs). cbn [app length] in *.
    rewrite Nat.add_0_r in Hk.
    destruct Hs as [->| ->]; [exact Hk|]. exact Hk.
Qed.

(** The currency marker needs no context: it starts with the letter L and
    fits wherever its characters stand. *)
Lemma currency_anywhere (pos : nat) (g g' : groups) (w s' : str) :
  derives true currency pos g w s' g' ->
  (exists l rest, w = l :: rest /\ atom_match true (Lit (ch "L")) l = true)
  /\ forall pos2 g2 s2, derives true currency pos2 g2 w s2 g2.
Proof.
  unfold currency, Seq, Opt. cbn [derives]. intros D.
  destruct D as (w1 & w2 & g1 & -> & (l & -> & Hl & ->) & D).
  destruct D as (w3 & w4 & g3 & -> & D3 & D).
  destruct D as (w5 & w6 & g5 & -> & (e & -> & He & ->) & D6).
  split; [exists l, (w3 ++ [e] ++ w6); auto|].
  intros pos2 g2 s2.
  exists [l], (w3 ++ [e] ++ w6), g2. split; [reflexivity|].
  split; [exists l; auto|].
  exists w3, ([e] ++ w6), g2. split; [reflexivity|]. split.
  { destruct D3 as [(d & -> & Hd & _)|(-> & _)];
      [left; exists d; auto|right; auto]. }
  exists [e], w6, g2. split; [reflexivity|]. split; [exists e; auto|].
  destruct D6 as [(d & -> & Hd & _)|(-> & _)];
    [left; exists d; auto|right; auto].
Qed.

(** A line the whole-line pattern matches: digits, white space, the currency
    marker and what is left. *)
Lemma price_only_shape (line : str) (m : groups) :
  match_ true price_only_pattern line = Some m ->
  exists c digits spaces marker tail,
    line = (c :: digits) ++ spaces ++ marker ++ tail
    /\ Forall (fun x => is_digit x = true) (c :: digits)
    /\ Forall (fun x => is_space x = true) spaces
    /\ derives true currency 0 ∅ marker [] ∅
    /\ m !! 1%nat = Some ((c :: digits)).
Proof.
  intros H. apply match_sound in H as (w & s' & Hs & D).
  unfold price_only_pattern, Seq in D.
  destruct D as (w0 & w1 & g0 & -> & (_ & -> & ->) & D).
  destruct D as (w2 & w3 & g2 & -> & D2 & D3).
  destruct D2 as (g2' & Dd & ->).
  destruct Dd as (d1 & d2 & gd & -> & Da & Db).
  destruct Da as (c & -> & Hc & ->).
  destruct Db as (Hds & ->).
  destruct D3 as (w4 & w5 & g4 & -> & (Hsp & ->) & D5).
  destruct D5 as (w6 & w7 & g6 & -> & (g7 & Dc & ->) & D7).
  pose proof (currency_keeps_groups _ _ _ _ _ Dc) as ->.
  apply currency_anywhere in Dc as [_ Dc].
  unfold Opt in D7. cbn [derives] in D7.
  assert (m = <[2%nat := w6]>
                (<[1%nat := ([c] ++ d2)]> ∅)) as ->
    by (break_derives; subst; reflexivity).
  exists c, d2, w4, w6, (w7 ++ s').
  split; [|split; [|split; [|split]]].
  - rewrite Hs. cbn [app]. rewrite <- !app_assoc. reflexivity.
  - constructor; assumption.
  - exact Hsp.
  - apply Dc.
  - rewrite lookup_insert_ne by discriminate. apply lookup_insert_eq.
Qed.

(** On such a line the general pattern matches at the start and captures
    the same digits. *)
Lemma price_pattern_on_shape (c : N) (digits spaces marker tail : str) :
  Forall (fun x => is_digit x = true) (c :: digits) ->
  Forall (fun x => is_space x = true) spaces ->
  derives true currency 0 ∅ marker [] ∅ ->
  exists m,
    run true price_pattern 0 ((c :: digits) ++ spaces ++ marker ++ tail) ∅
        (fun _ _ g => Some g) = Some m
    /\ m !! 2%nat = Some ((c :: digits)).
Proof.
  intros Hd Hsp Dc. inversion Hd as [|? ? Hc Hds]; subst.
  destruct (currency_anywhere _ _ _ _ _ Dc) as [(l & rest & -> & Hl) Dany].
  destruct (currency_letter l Hl) as [Hld Hls].
  pose proof (digit_is_no_letter c Hc) as HcP.
  set (g2 := <[2%nat := (c :: digits)]>
               (<[1%nat := []]> (∅ : groups))).
  (* the marker, with its group *)
  assert (Hm : forall pos,
             exists m, run true (Group 3 currency) pos ((l :: rest) ++ tail) g2
                           (fun _ _ g => Some g) = Some m
                       /\ m !! 2%nat = g2 !! 2%nat).
  { intros pos.
    destruct (run_complete true (Group 3 currency) pos g2 (l :: rest) tail
                (<[3%nat := (l :: rest)]> g2)
                (fun _ _ g => Some g)) as [m Hm]; [|eauto|].
    - cbn [derives]. exists g2. split; [apply Dany|reflexivity].
    - exists m. split; [exact Hm|].
      apply run_sound in Hm as (w & s' & g' & _ & D & Hk).
      inversion Hk; subst g'. destruct D as (g1 & D & ->).
      apply currency_keeps_groups in D. subst g1.
      apply lookup_insert_ne. discriminate. }
  destruct (Hm (0 + length (c :: digits) + length spaces)%nat)
    as (m & Hrun & Hm2).
  exists m. split; [|rewrite Hm2; apply lookup_insert_eq].
  unfold price_pattern, Seq, Plus.
  change (txt "Price") with (ch "P" :: txt "rice").
  cbn [run Word app]. rewrite HcP.
  cbn [atom_match]. rewrite Hc.
  apply star_longest; [exact Hds| |].
  { destruct spaces as [|x spaces]; cbn [app atom_match]; [exact Hld|].
    inversion Hsp; subst. apply space_is_no_digit. assumption. }
  apply star_longest; [exact Hsp|cbn [app atom_match]; exact Hls|].
  replace (1 + length digits - 0)%nat with (S (length digits)) by lia.
  rewrite Nat.sub_0_r. cbn [take].
  rewrite (take_app_length digits). fold g2.
  rewrite <- Hrun. f_equal; cbn [length]; lia.
Qed.

Lemma search_from_here (ic : bool) (r : regex) (pos : nat) (s : str)
    (m : groups) :
  run ic r pos s ∅ (fun _ _ g => Some g) = Some m ->
  search_from ic r pos s = Some m.
Proof. intros H. destruct s; cbn [search_from]; rewrite H; reflexivity. Qed.

(** The whole-line price pattern never decides anything: every line it
    matches is matched by the general pattern, with the same digits as
    amount, so the price of a line is always group 2 of the general
    pattern. *)
Theorem whole_line_pattern_never_decides (line : str) :
  (forall m1,
      match_ true price_only_pattern line = Some m1 ->
      exists m, search true price_pattern line = Some m
                /\ m !! 2%nat = m1 !! 1%nat)
  /\ line_price line
     = match search true price_pattern line with
       | Some m => Some (group m 2)
       | None => None
       end.
Proof.
  assert (H1 : forall m1,
             match_ true price_only_pattern line = Some m1 ->
             exists m, search true price_pattern line = Some m
                       /\ m !! 2%nat = m1 !! 1%nat).
  { intros m1 Hm1.
    apply price_only_shape in Hm1
      as (c & digits & spaces & marker & tail & Hs & Hd & Hsp & Dc & Hg).
    destruct (price_pattern_on_shape c digits spaces marker tail Hd Hsp Dc)
      as (m & Hrun & Hm2).
    exists m. split; [|congruence].
    unfold search. rewrite Hs. apply search_from_here. exact Hrun. }
  split; [exact H1|].
  unfold line_price.
  destruct (search true price_pattern line) as [m|] eqn:Hs; [reflexivity|].
  destruct (match_ true price_only_pattern line) as [m1|] eqn:Hm1;
    [|reflexivity].
  destruct (H1 m1 eq_refl) as (m & Hm & _). discriminate.
Qed.

Lemma whole_line_pattern_never_decides_witness :
  exists m, search true price_pattern (txt "150 L.E.") = Some m
            /\ m !! 2%nat = Some (txt "150").
Proof.
  destruct (proj1 (whole_line_pattern_never_decides (txt "150 L.E."))
              (<[2%nat := (txt "L.E.")]> (<[1%nat := (txt "150")]> ∅)))
    as (m & Hm & Hg).
  - vm_compute. reflexivity.
  - exists m. split; [exact Hm|]. rewrite Hg. vm_compute. reflexivity.
Defined.

(** The digits found again in a formatted price are the amount. *)
Lemma price_digits_of_amount (d : str) :
  d <> [] -> Forall (fun c => is_digit c = true) d ->
  Report.price_digits (d ++ (txt " L.E"))
  = Some (d).
Proof.
  intros Hne Hd. destruct d as [|c ds]; [congruence|].
  inversion Hd as [|? ? Hc Hds]; subst.
  unfold Report.price_digits, search.
  rewrite (search_from_here false (Group 0 (Plus Digit)) 0 _
             (<[0%nat := (c :: ds)]> ∅)).
  - unfold group. rewrite lookup_insert_eq. reflexivity.
  - unfold Plus. cbn [run app atom_match]. rewrite Hc.
    apply star_longest; [exact Hds|reflexivity|].
    replace (1 + length ds - 0)%nat with (S (length ds)) by lia.
    cbn [take]. rewrite (take_app_length ds). reflexivity.
Qed.

Lemma fold_prices (lines : list str) :
  forall st : dict * list dict,
    Forall (fun it : dict =>
              exists d, d <> []
                        /\ Forall (fun c => is_digit c = true) d
                        /\ it !! "price"
                           = Some (d ++ (txt " L.E"))) st.2 ->
    Forall (fun it : dict =>
              exists d, d <> []
                        /\ Forall (fun c => is_digit c = true) d
                        /\ it !! "price"
                           = Some (d ++ (txt " L.E")))
           (fold_left step lines st).2.
Proof.
  induction lines as [|line lines IH]; intros st Hst; cbn [fold_left];
    [exact Hst|].
  apply IH.
  destruct (step_emits st line) as [->|(p & Hp & _ & -> & _)]; [exact Hst|].
  apply Forall_app. split; [exact Hst|].
  constructor; [|constructor].
  apply line_price_digits in Hp as (_ & d & _ & _ & Hne & Hd & ->).
  exists d. rewrite lookup_insert_eq. auto.
Qed.

(** Every price in the result has the form "<digits> L.E", with at least one
    digit, and [price_to_float] finds these digits again: on the prices the
    segmenter writes, its search never fails. *)
Theorem emitted_prices_read_back (lines : list str) (c : str) (r : row) :
  r ∈ map (row_of c) (segment lines) ->
  exists amount,
    price r = amount ++ (txt " L.E")
    /\ amount <> []
    /\ Forall (fun x => is_digit x = true) amount
    /\ Report.price_digits (price r) = Some amount.
Proof.
  intros Hr. apply list_elem_of_fmap in Hr as (it & -> & Hit).
  pose proof (segment_run_items lines) as Hs.
  rewrite Hs, run_lines_fold in Hit.
  pose proof (fold_prices lines (∅, []) (List.Forall_nil _)) as Hall.
  rewrite Forall_forall in Hall.
  destruct (Hall it Hit) as (d & Hne & Hd & Hp).
  exists (d). unfold row_of. cbn [price].
  rewrite Hp. cbn [default]. unfold id.
  split; [reflexivity|]. split; [destruct d; [congruence|discriminate]|].
  split; [exact Hd|].
  apply price_digits_of_amount; assumption.
Qed.

Lemma emitted_prices_read_back_witness :
  exists amount,
    price (Row (txt "Drinks") (txt "Tea") [] (txt "15 L.E")) = amount ++ (txt " L.E")
    /\ Report.price_digits (price (Row (txt "Drinks") (txt "Tea") [] (txt "15 L.E")))
       = Some amount.
Proof.
  destruct (emitted_prices_read_back [txt "Tea"; txt "15 LE"] (txt "Drinks")
              (Row (txt "Drinks") (txt "Tea") [] (txt "15 L.E")))
    as (amount & Hp & _ & _ & Hd).
  - apply list_elem_of_In. vm_compute. left. reflexivity.
  - exists amount. auto.
Defined.

Lemma fold_no_price_emits_nothing (tail : list str) :
  forall st : dict * list dict,
    List.filter is_price_line tail = [] ->
    (fold_left step tail st).2 = st.2.
Proof.
  induction tail as [|line tail IH]; intros st Hnone; cbn [fold_left];
    [reflexivity|].
  cbn [List.filter] in Hnone.
  destruct (is_price_line line) eqn:Hl; [discriminate|].
  rewrite (IH _ Hnone).
  destruct (step_emits st line) as [He|(p & Hp & _)]; [exact He|].
  unfold is_price_line in Hl. rewrite Hp in Hl. discriminate.
Qed.

(** What follows the last price line is lost: lines without a price at the
    end of the sequence, a started item among them, change nothing in the
    items. *)
Theorem lines_after_last_price_are_dropped (lines tail : list str) :
  List.filter is_price_line tail = [] ->
  segment (lines ++ tail) = segment lines.
Proof.
  intros Hnone.
  rewrite (segment_run_items (lines ++ tail)).
  rewrite (segment_run_items lines).
  rewrite !run_lines_fold, fold_step_app.
  apply fold_no_price_emits_nothing, Hnone.
Qed.

Lemma lines_after_last_price_are_dropped_witness :
  segment ([txt "Tea"; txt "15 LE"] ++ [txt "Cake"; txt "with cream"]) = segment [txt "Tea"; txt "15 LE"].
Proof.
  apply (lines_after_last_price_are_dropped [txt "Tea"; txt "15 LE"]
           [txt "Cake"; txt "with cream"]).
  vm_compute. reflexivity.
Defined.

(** Where no item is pending a noise token leaves no trace: at the start of
    the lines and right after a price line, the sequence with the token and
    the sequence without it give the same items. *)
Theorem noise_token_between_items_is_dropped
    (before after : list str) (line p noise : str) :
  lower noise ∈ noise_tokens ->
  line_price line = Some p ->
  segment (noise :: after) = segment after
  /\ segment (before ++ line :: noise :: after)
     = segment (before ++ line :: after).
Proof.
  intros Hn Hp.
  assert (Hstep : forall items, step (∅, items) noise = (∅, items)).
  { intros items.
    rewrite step_unnamed;
      [|apply noise_token_no_price, Hn|apply not_some_and_none; reflexivity].
    rewrite (bool_decide_eq_true_2 _ Hn). reflexivity. }
  split.
  - unfold segment. rewrite !run_lines_fold. cbn [fold_left].
    rewrite Hstep. reflexivity.
  - unfold segment. rewrite !run_lines_fold, !fold_step_app.
    cbn [fold_left].
    destruct (step (fold_left step before (∅, [])) line) as [c i] eqn:Hst.
    assert (Hc : c = ∅).
    { pose proof (step_price_resets (fold_left step before (∅, [])) line p Hp)
        as H. rewrite Hst in H. exact H. }
    subst c. rewrite Hstep. reflexivity.
Qed.

Lemma noise_token_between_items_is_dropped_witness :
  segment ([txt "Tea"] ++ (txt "15 LE") :: (txt "L.E") :: [txt "Cake"; txt "20 LE"])
  = segment ([txt "Tea"] ++ (txt "15 LE") :: [txt "Cake"; txt "20 LE"]).
Proof.
  refine (proj2 (noise_token_between_items_is_dropped [txt "Tea"] [txt "Cake"; txt "20 LE"]
                   (txt "15 LE") (txt "15") (txt "L.E") _ _)).
  - apply list_elem_of_In. vm_compute. auto.
  - vm_compute. reflexivity.
Defined.

End MenuFacts.
(** ** The lines of a panel *)

Module TextFacts.
Import Text Crawl Menu.

Lemma lstrip_head (l : str) :
  match lstrip l with
  | [] => True
  | c :: _ => is_space c = false
  end.
Proof.
  induction l as [|c l IH]; cbn [lstrip]; [exact I|].
  destruct (is_space c) eqn:Hc; [exact IH|exact Hc].
Qed.

Lemma lstrip_fixed (l : str) :
  match l with [] => True | c :: _ => is_space c = false end ->
  lstrip l = l.
Proof. destruct l as [|c l]; cbn [lstrip]; [auto|intros ->; auto]. Qed.

Lemma lstrip_suffix (l : str) :
  exists dropped, l = dropped ++ lstrip l /\ Forall (fun c => is_space c = true) dropped.
Proof.
  induction l as [|c l [d [IH Hd]]]; cbn [lstrip];
    [exists []; split; [reflexivity|constructor]|].
  destruct (is_space c) eqn:Hc.
  - exists (c :: d). cbn [app]. rewrite <- IH. split; [reflexivity|].
    constructor; assumption.
  - exists []. split; [reflexivity|constructor].
Qed.

Lemma lstrip_forall (P : N -> Prop) (l : str) :
  Forall P l -> Forall P (lstrip l).
Proof.
  intros H. destruct (lstrip_suffix l) as [d [Hd _]]. rewrite Hd in H.
  apply Forall_app in H as [_ H]. exact H.
Qed.

Lemma strip_head (l : str) :
  match strip l with
  | [] => True
  | c :: _ => is_space c = false
  end.
Proof.
  unfold strip.
  destruct (lstrip_suffix (rev (lstrip l))) as [d [Hd _]].
  apply (f_equal (@rev N)) in Hd.
  rewrite rev_involutive, rev_app_distr in Hd.
  pose proof (lstrip_head l) as Hh. rewrite Hd in Hh.
  destruct (rev (lstrip (rev (lstrip l)))); [exact I|exact Hh].
Qed.

Lemma strip_idempotent (l : str) : strip (strip l) = strip l.
Proof.
  unfold strip at 1.
  rewrite (lstrip_fixed (strip l) (strip_head l)).
  unfold strip. rewrite rev_involutive.
  rewrite (lstrip_fixed _ (lstrip_head _)). reflexivity.
Qed.

Lemma strip_forall (P : N -> Prop) (l : str) :
  Forall P l -> Forall P (strip l).
Proof.
  intros H. unfold strip.
  apply Forall_rev, lstrip_forall, Forall_rev, lstrip_forall, H.
Qed.

Lemma strip_last (l : str) :
  match rev (strip l) with
  | [] => True
  | c :: _ => is_space c = false
  end.
Proof. unfold strip. rewrite rev_involutive. apply lstrip_head. Qed.

(** What [strip] removes is white space, at the two ends. *)
Lemma strip_parts (l : str) :
  exists left right,
    l = left ++ strip l ++ right
    /\ Forall (fun c => is_space c = true) left
    /\ Forall (fun c => is_space c = true) right.
Proof.
  unfold strip.
  destruct (lstrip_suffix l) as [d1 [H1 Hd1]].
  destruct (lstrip_suffix (rev (lstrip l))) as [d2 [H2 Hd2]].
  exists d1, (rev d2). split; [|split; [exact Hd1|apply Forall_rev, Hd2]].
  rewrite <- rev_app_distr, <- H2, rev_involutive. exact H1.
Qed.

Lemma splitlines_from_no_break (n : nat) :
  forall (s cur : str) (line : str),
    (length s <= n)%nat ->
    Forall (fun c => is_linebreak c = false) cur ->
    In line (splitlines_from cur s) ->
    Forall (fun c => is_linebreak c = false) line.
Proof.
  induction n as [|n IH]; intros s cur line Hn Hcur Hin.
  - destruct s as [|c s]; [|cbn [length] in Hn; lia].
    cbn [splitlines_from] in Hin.
    destruct cur as [|x cur]; [contradiction|].
    destruct Hin as [<-|[]]. apply Forall_rev, Hcur.
  - destruct s as [|c s].
    + cbn [splitlines_from] in Hin.
      destruct cur as [|x cur]; [contradiction|].
      destruct Hin as [<-|[]]. apply Forall_rev, Hcur.
    + cbn [length] in Hn. cbn [splitlines_from] in Hin.
      destruct (is_linebreak c) eqn:Hc.
      * destruct Hin as [<-|Hin]; [apply Forall_rev, Hcur|].
        destruct s as [|d s].
        { apply (IH [] [] line); [cbn [length]; lia|constructor|exact Hin]. }
        cbn [length] in Hn.
        destruct ((c =? 13)%N && (d =? 10)%N).
        { apply (IH s [] line); [lia|constructor|exact Hin]. }
        { apply (IH (d :: s) [] line);
            [cbn [length]; lia|constructor|exact Hin]. }
      * apply (IH s (c :: cur) line); [lia| |exact Hin].
        constructor; assumption.
Qed.

(** Every line handed to the segmenter is a trimmed text line: it is
    not empty, its first and its last character are no white space (so
    [strip] leaves it unchanged), and it holds no line boundary of
    [splitlines]; white space and line boundaries are those of Python, the
    no-break space and the Unicode line separators included. *)
Theorem text_lines_are_trimmed (text line : str) :
  line ∈ text_lines text ->
  line <> []
  /\ strip line = line
  /\ (exists first, head line = Some first /\ is_space first = false)
  /\ (exists last_, last line = Some last_ /\ is_space last_ = false)
  /\ Forall (fun c => is_linebreak c = false) line.
Proof.
  unfold text_lines. intros Hl.
  apply list_elem_of_fmap in Hl as (raw & -> & Hraw).
  apply list_elem_of_In, filter_In in Hraw as [Hin Hne].
  assert (Hnil : strip raw <> []).
  { apply negb_true_iff in Hne. case_bool_decide; [discriminate|assumption]. }
  split; [exact Hnil|]. split; [apply strip_idempotent|].
  split; [|split].
  - pose proof (strip_head raw) as Hh.
    destruct (strip raw) as [|c l]; [contradiction|].
    exists c. split; [reflexivity|exact Hh].
  - pose proof (strip_last raw) as Hh.
    destruct (rev (strip raw)) as [|c l] eqn:Hr.
    + apply (f_equal (@rev N)) in Hr. rewrite rev_involutive in Hr.
      contradiction.
    + exists c. split; [|exact Hh].
      apply (f_equal (@rev N)) in Hr. rewrite rev_involutive in Hr.
      rewrite Hr. cbn [rev]. apply last_snoc.
  - apply strip_forall.
    apply (splitlines_from_no_break (length text) text [] raw);
      [lia|constructor|exact Hin].
Qed.

Lemma text_lines_are_trimmed_witness :
  strip (txt "Tea") = txt "Tea".
Proof.
  apply (text_lines_are_trimmed
           ([160%N] ++ txt " Tea " ++ [8232%N] ++ txt " 15 LE") (txt "Tea")).
  apply list_elem_of_In. vm_compute. left. reflexivity.
Defined.

(** A no-break space is white space to [strip], and the Unicode line
    separator ends a line. *)
Example unicode_space_and_line_separator :
  strip [160%N] = []
  /\ text_lines (txt " Tea" ++ [160%N; 8232%N] ++ txt "hot") = [txt "Tea"; txt "hot"].
Proof. vm_compute. split; reflexivity. Qed.

End TextFacts.
(** ** More on the crawl *)

Module CrawlMore.
Import Text Soup Segmenter Crawl SegmenterFacts CrawlFacts Menu.

Lemma page_rows_have_name_and_price (soup : node) (r : row) :
  r ∈ page_rows soup -> item_name r <> [] /\ price r <> [].
Proof.
  unfold page_rows. intros Hr.
  apply list_elem_of_In, in_flat_map in Hr as (panel & _ & Hr).
  apply (panel_rows_have_name_and_price panel). apply list_elem_of_In, Hr.
Qed.

Section WithEnv.
Variable E : Env.
Variable use_selenium : bool.

Lemma scrape_page_appends (depth : nat) :
  forall (url : string) (w : world E) (rows : list row),
    match scrape_page E use_selenium depth url rows w with
    | Returned rows' _ | Raised _ rows' _ =>
        exists more,
          rows' = rows ++ more
          /\ forall r, r ∈ more -> item_name r <> [] /\ price r <> []
    end.
Proof.
  assert (Hnone : forall rows : list row,
             exists more,
               rows = rows ++ more
               /\ forall r, r ∈ more -> item_name r <> [] /\ price r <> []).
  { intros rows. exists []. rewrite app_nil_r. split; [reflexivity|].
    intros r Hr. apply elem_of_nil in Hr. contradiction. }
  induction depth as [|depth IH]; intros url w rows;
    cbn [scrape_page]; [apply Hnone|].
  destruct (get_soup E use_selenium url w) as [[[soup|]|e] w1];
    [|apply Hnone|apply Hnone].
  destruct (next_page_url soup) as [next|].
  - specialize (IH next w1 (rows ++ page_rows soup)).
    destruct (scrape_page E use_selenium depth next
                (rows ++ page_rows soup) w1) as [r w2|e r w2].
    + destruct IH as (more & -> & Hm).
      exists (page_rows soup ++ more). rewrite app_assoc.
      split; [reflexivity|]. intros r Hr.
      apply elem_of_app in Hr as [Hr|Hr];
        [apply (page_rows_have_name_and_price soup r Hr)|apply Hm, Hr].
    + destruct IH as (more & -> & Hm).
      exists (page_rows soup ++ more). rewrite app_assoc.
      split; [reflexivity|]. intros r Hr.
      apply elem_of_app in Hr as [Hr|Hr];
        [apply (page_rows_have_name_and_price soup r Hr)|apply Hm, Hr].
  - exists (page_rows soup). split; [reflexivity|].
    apply page_rows_have_name_and_price.
Qed.

Lemma scrape_menu_rows_complete
    (depth : nat) (url : string) (w w' : world E) (rows' : list row) :
  scrape_menu E use_selenium depth url w = Returned rows' w' ->
  forall r, r ∈ rows' -> item_name r <> [] /\ price r <> [].
Proof.
  intros Hret r Hr. unfold scrape_menu in Hret.
  pose proof (scrape_page_appends depth url w []) as H. rewrite Hret in H.
  destruct H as (more & -> & Hm). apply Hm, Hr.
Qed.

(** Linked pages as many as the recursion limit leaves room for: the call
    for the page after them raises [RecursionError], with the rows of all
    of them gathered. *)
Lemma crawl_to_recursion_limit
    (w w1 : world E) (url url1 : string) (soups : list node) :
  pages_fetched E use_selenium w url soups w1 url1 ->
  forall rows : list row,
    scrape_page E use_selenium (length soups) url rows w
    = Raised RecursionError (rows ++ flat_map page_rows soups) w1.
Proof.
  intros Hp.
  induction Hp as [w url|w w1 w3 url url1 url2 soup soups Hg1 Hn1 Hp IH];
    intros rows.
  - cbn [length scrape_page flat_map]. rewrite app_nil_r. reflexivity.
  - cbn [length scrape_page]. rewrite Hg1, Hn1, IH.
    cbn [flat_map]. rewrite <- app_assoc. reflexivity.
Qed.

(** Where every fetch gives a page with a link, pages are fetched one
    after the other for as long as one likes. *)
Lemma linked_pages_go_on :
  (forall url w,
      exists soup w' next,
        get_soup E use_selenium url w = (Ok (Some soup), w')
        /\ next_page_url soup = Some next) ->
  forall (n : nat) (url : string) (w : world E),
    exists soups w' url',
      pages_fetched E use_selenium w url soups w' url'
      /\ length soups = n.
Proof.
  intros Hall. induction n as [|n IH]; intros url w.
  - exists [], w, url. split; [constructor|reflexivity].
  - destruct (Hall url w) as (soup & w1 & next & Hg & Hn).
    destruct (IH next w1) as (soups & w2 & url2 & Hp & Hl).
    exists (soup :: soups), w2, url2. split.
    + apply (fetched_more E use_selenium w w1 w2 url next url2 soup soups);
        assumption.
    + cbn [length]. rewrite Hl. reflexivity.
Qed.

(** A crawl only appends: however it ends, the rows it holds are the rows
    it started with followed by rows that all have a name and a price; so
    every row [scrape_menu] returns has a non-empty name and a non-empty
    price. *)
Theorem crawl_only_appends_complete_rows
    (depth : nat) (url : string) (w : world E) :
  (forall rows,
      match scrape_page E use_selenium depth url rows w with
      | Returned rows' _ | Raised _ rows' _ =>
          exists more,
            rows' = rows ++ more
            /\ forall r, r ∈ more -> item_name r <> [] /\ price r <> []
      end)
  /\ forall rows' w',
       scrape_menu E use_selenium depth url w = Returned rows' w' ->
       forall r, r ∈ rows' -> item_name r <> [] /\ price r <> [].
Proof.
  split.
  - intros rows. apply scrape_page_appends.
  - intros rows' w'. apply scrape_menu_rows_complete.
Qed.

(** Pages that link one to the next, the last without a link, are crawled
    in that order, whichever fetch is used, when the recursion limit leaves
    room for one call per page: the crawl returns, and the rows it returns
    are the rows of the pages, page after page. *)
Theorem crawl_follows_pages_in_order
    (w w1 w2 : world E) (url url1 : string) (soups : list node)
    (last : node) :
  pages_fetched E use_selenium w url soups w1 url1 ->
  get_soup E use_selenium url1 w1 = (Ok (Some last), w2) ->
  next_page_url last = None ->
  forall (depth : nat) (rows : list row),
    (length soups < depth)%nat ->
    scrape_page E use_selenium depth url rows w
    = Returned (rows ++ flat_map page_rows (soups ++ [last])) w2.
Proof.
  intros Hp Hg Hn.
  induction Hp as [w url|w w1 w3 url url1 url2 soup soups Hg1 Hn1 Hp IH];
    intros depth rows Hdepth.
  - destruct depth as [|depth]; [cbn [length] in Hdepth; lia|].
    cbn [scrape_page]. rewrite Hg, Hn. cbn [app flat_map].
    rewrite app_nil_r. reflexivity.
  - destruct depth as [|depth]; [cbn [length] in Hdepth; lia|].
    cbn [scrape_page]. rewrite Hg1, Hn1.
    rewrite (IH Hg depth); [|cbn [length] in Hdepth; lia].
    cbn [app flat_map]. rewrite <- app_assoc. reflexivity.
Qed.

(** Nothing but a page without a link or a failed fetch lets the crawl
    return: where every fetch gives a page with a pagination link, as with
    a page that links to itself, the crawl fetches as many pages as the
    recursion limit leaves room for and then ends by [RecursionError], which
    leaves [scrape_menu]; the rows gathered are not returned. *)
Theorem crawl_without_last_page_never_returns :
  (forall url w,
      exists soup w' next,
        get_soup E use_selenium url w = (Ok (Some soup), w')
        /\ next_page_url soup = Some next) ->
  forall (depth : nat) (url : string) (w : world E),
    exists soups w' url',
      pages_fetched E use_selenium w url soups w' url'
      /\ length soups = depth
      /\ (forall rows : list row,
             scrape_page E use_selenium depth url rows w
             = Raised RecursionError (rows ++ flat_map page_rows soups) w')
      /\ scrape_menu E use_selenium depth url w
         = Raised RecursionError (flat_map page_rows soups) w'.
Proof.
  intros Hall depth url w.
  destruct (linked_pages_go_on Hall depth url w)
    as (soups & w' & url' & Hp & Hl).
  exists soups, w', url'. split; [exact Hp|]. split; [exact Hl|].
  pose proof (crawl_to_recursion_limit w w' url url' soups Hp) as Hr.
  rewrite Hl in Hr. split; [exact Hr|].
  unfold scrape_menu. rewrite Hr. reflexivity.
Qed.
End WithEnv.

Lemma crawl_only_appends_complete_rows_witness :
  item_name (Row (txt "Drinks") (txt "Tea") [] (txt "15 L.E")) <> []
  /\ price (Row (txt "Drinks") (txt "Tea") [] (txt "15 L.E")) <> [].
Proof.
  refine (proj2 (crawl_only_appends_complete_rows (static_site drinks_page)
                   false 1 Report.menu_url (tt : world (static_site drinks_page)))
                [Row (txt "Drinks") (txt "Tea") [] (txt "15 L.E")]
                (tt : world (static_site drinks_page)) _
                (Row (txt "Drinks") (txt "Tea") [] (txt "15 L.E")) _).
  - vm_compute. reflexivity.
  - left.
Defined.

Lemma crawl_follows_pages_in_order_witness :
  scrape_page (site_serving [drinks_page_with_next; drinks_page]) true 2
              Report.menu_url []
              (0%nat : world (site_serving [drinks_page_with_next; drinks_page]))
  = Returned ([] ++ flat_map page_rows ([drinks_page_with_next] ++ [drinks_page]))
             (2%nat : world (site_serving [drinks_page_with_next; drinks_page])).
Proof.
  apply (crawl_follows_pages_in_order
           (site_serving [drinks_page_with_next; drinks_page]) true
           (0%nat : world (site_serving [drinks_page_with_next; drinks_page]))
           (1%nat : world (site_serving [drinks_page_with_next; drinks_page]))
           (2%nat : world (site_serving [drinks_page_with_next; drinks_page]))
           Report.menu_url "/menu-m/page/2/" [drinks_page_with_next]
           drinks_page).
  - apply (fetched_more _ _ _ (1%nat : world (site_serving [drinks_page_with_next; drinks_page])) _ _
             "/menu-m/page/2/").
    + reflexivity.
    + vm_compute. reflexivity.
    + constructor.
  - reflexivity.
  - vm_compute. reflexivity.
  - cbn [length]. lia.
Defined.

Lemma crawl_without_last_page_never_returns_witness :
  exists soups w' url',
    pages_fetched (static_site (page_linking_to Report.menu_url)) false
                  (tt : world (static_site (page_linking_to Report.menu_url)))
                  Report.menu_url soups w' url'
    /\ length soups = 3%nat
    /\ (forall rows : list row,
           scrape_page (static_site (page_linking_to Report.menu_url)) false
                       3 Report.menu_url rows
                       (tt : world (static_site (page_linking_to Report.menu_url)))
           = Raised RecursionError (rows ++ flat_map page_rows soups) w')
    /\ scrape_menu (static_site (page_linking_to Report.menu_url)) false
                   3 Report.menu_url
                   (tt : world (static_site (page_linking_to Report.menu_url)))
       = Raised RecursionError (flat_map page_rows soups) w'.
Proof.
  apply (crawl_without_last_page_never_returns
           (static_site (page_linking_to Report.menu_url)) false).
  intros url w.
  exists (page_linking_to Report.menu_url),
         (tt : world (static_site (page_linking_to Report.menu_url))), Report.menu_url.
  split; [destruct w; reflexivity|vm_compute; reflexivity].
Defined.

Lemma plain_crawl_stops_at_failed_page_witness :
  scrape_page (site_serving [drinks_page_with_next]) false 2 Report.menu_url []
              (0%nat : world (site_serving [drinks_page_with_next]))
  = Returned ([] ++ flat_map page_rows [drinks_page_with_next])
             (2%nat : world (site_serving [drinks_page_with_next])).
Proof.
  refine (proj1 (plain_crawl_stops_at_failed_page
                   (site_serving [drinks_page_with_next])
                   (0%nat : world (site_serving [drinks_page_with_next]))
                   (1%nat : world (site_serving [drinks_page_with_next]))
                   (2%nat : world (site_serving [drinks_page_with_next]))
                   Report.menu_url "/menu-m/page/2/" [drinks_page_with_next]
                   _ _ 2%nat []) _).
  - apply (fetched_more _ _ _ (1%nat : world (site_serving [drinks_page_with_next])) _ _
             "/menu-m/page/2/").
    + reflexivity.
    + vm_compute. reflexivity.
    + constructor.
  - left. exists (Response 404 [1%N]). split; [reflexivity|]. intros H. discriminate H.
  - cbn [length]. lia.
Defined.

End CrawlMore.
(** ** The robots file *)

Module RobotsFacts.
Import Text Crawl Analysis Robots Menu Chars CharFacts.

Lemma partition_at_none (sep : N) (s : str) :
  partition_at sep s = None <-> Forall (fun c => c <> sep) s.
Proof.
  induction s as [|c s IH]; cbn [partition_at].
  - split; [constructor|reflexivity].
  - destruct (N.eqb_spec c sep) as [->|Hne].
    + split; [discriminate|]. intros H. inversion H; subst. congruence.
    + destruct (partition_at sep s) as [[b a]|].
      * split; [discriminate|]. intros H. inversion H; subst.
        apply IH in H3. discriminate.
      * split; [|reflexivity]. intros _. constructor; [exact Hne|].
        apply IH. reflexivity.
Qed.

Lemma partition_at_first (sep : N) (name rest : str) :
  Forall (fun c => c <> sep) name ->
  partition_at sep (name ++ sep :: rest) = Some (name, rest).
Proof.
  induction name as [|c name IH]; intros Hn; cbn [app partition_at].
  - rewrite N.eqb_refl. reflexivity.
  - inversion Hn as [|? ? Hc Hn']; subst.
    destruct (N.eqb_spec c sep); [contradiction|].
    rewrite (IH Hn'). reflexivity.
Qed.

(** Only the colon has the colon as its lower case. *)
Lemma colon_lower (c : N) : lower_char c = ch ":" -> c = ch ":".
Proof.
  intros H. apply lower_char_preimage in H as [H|H]; [exact H|].
  vm_compute in H. contradiction.
Qed.

(** A sitemap line is its directive name, the colon and the rest. *)
Lemma sitemap_line (line : str) :
  startswith (txt "sitemap:") (lower line) = true ->
  exists name rest,
    line = name ++ ch ":" :: rest
    /\ lower name = txt "sitemap"
    /\ split_once (ch ":") line = [name; rest].
Proof.
  intros H. unfold lower in H.
  apply (prefix_lower (txt "sitemap:") eq_refl) in H
    as (head & rest & -> & Hh & Hplain).
  assert (Hhead : exists name,
             head = name ++ [ch ":"]
             /\ map lower_char name = txt "sitemap"
             /\ Forall (fun c => c <> 931%N /\ c <> 304%N) name).
  { destruct head as [|c1 [|c2 [|c3 [|c4 [|c5 [|c6 [|c7 [|c8 [|c9 head]]]]]]]]];
      try discriminate.
    cbn [map] in Hh.
    injection Hh as H1 H2 H3 H4 H5 H6 H7 H8.
    exists [c1; c2; c3; c4; c5; c6; c7].
    rewrite (colon_lower c8 H8).
    split; [reflexivity|]. split.
    - cbn [map]. rewrite H1, H2, H3, H4, H5, H6, H7. reflexivity.
    - repeat match goal with
             | Hp : Forall _ (_ :: _) |- _ =>
                 let Hc := fresh "Hc" in
                 apply Forall_cons in Hp as [Hc Hp]
             end.
      repeat constructor;
        match goal with Hc : _ /\ _ |- _ => apply Hc end. }
  destruct Hhead as (name & -> & Hn & Hnp).
  exists name, rest. rewrite <- app_assoc. cbn [app].
  split; [reflexivity|]. split.
  - unfold lower. rewrite (lower_from_plain name [] Hnp). exact Hn.
  - unfold split_once. rewrite partition_at_first; [reflexivity|].
    apply List.Forall_forall. intros c Hc ->.
    apply (in_map lower_char) in Hc. rewrite Hn in Hc.
    vm_compute in Hc. intuition discriminate.
Qed.

Lemma sitemap_values_done (lines : list str) :
  exists values, directive_values (txt "sitemap:") lines = Done values.
Proof.
  induction lines as [|line lines [values IH]]; [exists []; reflexivity|].
  cbn [directive_values].
  destruct (startswith (txt "sitemap:") (lower line)) eqn:Hp; [|eauto].
  destruct (sitemap_line line Hp) as (name & rest & _ & _ & ->).
  cbn [lookup list_lookup]. rewrite IH. eauto.
Qed.

Lemma crawl_delay_without_colon_fails (lines : list str) (line : str) :
  line ∈ lines ->
  startswith (txt "crawl-delay") (lower line) = true ->
  Forall (fun c => c <> ch ":") line ->
  directive_values (txt "crawl-delay") lines = Failed IndexError.
Proof.
  intros Hin Hp Hc. induction lines as [|l lines IH].
  - apply elem_of_nil in Hin. contradiction.
  - cbn [directive_values]. apply elem_of_cons in Hin as [<-|Hin].
    + rewrite Hp. unfold split_once.
      rewrite (proj2 (partition_at_none (ch ":") line) Hc). reflexivity.
    + rewrite (IH Hin).
      destruct (startswith (txt "crawl-delay") (lower l)); [|reflexivity].
      destruct (split_once (ch ":") l !! 1%nat); reflexivity.
Qed.

(** Reading the sitemaps never fails: every line that starts with
    "sitemap:", in any case, gives the text after that first colon,
    stripped, and the other lines give nothing; a colon inside the address
    is kept. *)
Theorem sitemap_values_never_fail (lines : list str) :
  exists values,
    directive_values (txt "sitemap:") lines = Done values
    /\ length values
       = length (List.filter
                   (fun line => startswith (txt "sitemap:") (lower line))
                   lines)
    /\ forall value,
         value ∈ values ->
         exists name rest,
           (name ++ ch ":" :: rest) ∈ lines
           /\ lower name = txt "sitemap"
           /\ value = strip rest.
Proof.
  induction lines as [|line lines (values & IH & Hlen & Hval)].
  - exists []. split; [reflexivity|]. split; [reflexivity|].
    intros value H. apply elem_of_nil in H. contradiction.
  - cbn [directive_values List.filter].
    destruct (startswith (txt "sitemap:") (lower line)) eqn:Hp.
    + destruct (sitemap_line line Hp) as (name & rest & -> & Hn & Hsplit).
      rewrite Hsplit. cbn [lookup list_lookup]. rewrite IH.
      exists (strip rest :: values).
      split; [reflexivity|]. split; [cbn [length]; lia|].
      intros value Hv. apply elem_of_cons in Hv as [->|Hv].
      * exists name, rest. split; [left|auto].
      * destruct (Hval value Hv) as (n & r & Hin & Hl & ->).
        exists n, r. split; [right; exact Hin|auto].
    + exists values. split; [exact IH|]. split; [exact Hlen|].
      intros value Hv.
      destruct (Hval value Hv) as (n & r & Hin & Hl & ->).
      exists n, r. split; [right; exact Hin|auto].
Qed.

(** Reading the crawl delays fails, with an [IndexError], exactly when some
    line starts with "crawl-delay", in any case, and has no colon; otherwise
    it gives one value for each line that starts so. *)
Theorem crawl_delay_values_fail_without_colon (lines : list str) :
  ((exists line,
       line ∈ lines
       /\ startswith (txt "crawl-delay") (lower line) = true
       /\ Forall (fun c => c <> ch ":") line)
   <-> directive_values (txt "crawl-delay") lines = Failed IndexError)
  /\ (forall values,
         directive_values (txt "crawl-delay") lines = Done values ->
         length values
         = length (List.filter
                     (fun line => startswith (txt "crawl-delay") (lower line))
                     lines))
  /\ (forall e, directive_values (txt "crawl-delay") lines = Failed e ->
                e = IndexError).
Proof.
  induction lines as [|line lines (IHiff & IHlen & IHe)].
  - split; [split|split].
    + intros (line & Hin & _). apply elem_of_nil in Hin. contradiction.
    + discriminate.
    + intros values H. inversion H. reflexivity.
    + discriminate.
  - cbn [directive_values List.filter].
    destruct (startswith (txt "crawl-delay") (lower line)) eqn:Hp.
    + unfold split_once.
      destruct (partition_at (ch ":") line) as [[b a]|] eqn:Hpart;
        cbn [lookup list_lookup].
      * assert (Hcolon : ~ Forall (fun c => c <> ch ":") line).
        { intros H. apply partition_at_none in H. congruence. }
        destruct (directive_values (txt "crawl-delay") lines) as [vs|e] eqn:Hd.
        { split; [split|split].
          - intros (l & Hin & Hl & Hc).
            apply elem_of_cons in Hin as [->|Hin]; [contradiction|].
            assert (Done vs = Failed IndexError) by (apply IHiff; eauto).
            discriminate.
          - discriminate.
          - intros values H. inversion H; subst. cbn [length].
            rewrite (IHlen vs eq_refl). reflexivity.
          - discriminate. }
        { rewrite (IHe e eq_refl). split; [split|split].
          - reflexivity.
          - intros _. rewrite (IHe e eq_refl) in IHiff.
            destruct (proj2 IHiff eq_refl) as (l & Hin & Hl & Hc).
            exists l. split; [right; exact Hin|auto].
          - discriminate.
          - intros e' H. inversion H. reflexivity. }
      * split; [split|split].
        -- reflexivity.
        -- intros _. exists line.
           split; [left|]. split; [exact Hp|].
           apply partition_at_none. exact Hpart.
        -- discriminate.
        -- intros e H. inversion H. reflexivity.
    + split; [split|split].
      * intros (l & Hin & Hl & Hc).
        apply elem_of_cons in Hin as [->|Hin]; [congruence|].
        apply IHiff. eauto.
      * intros H. destruct (proj2 IHiff H) as (l & Hin & Hl & Hc).
        exists l. split; [right; exact Hin|auto].
      * exact IHlen.
      * exact IHe.
Qed.

(** Whatever [analyze_robots_txt] returns, a missing robots file comes with
    no text, no sitemap and no crawl delay, and a found one with its text;
    so without a robots file the score is 30 for a page that is not
    JavaScript heavy and 0 otherwise, and with one it is at least 25. *)
Theorem robots_facts_are_consistent
    (H : Host) (site_url : string) (w w' : world (env H)) (r : robots)
    (js_heavy : bool) :
  analyze_robots_txt H site_url w = (Done r, w') ->
  (has_robots r = false ->
     robots_txt r = None /\ sitemaps r = [] /\ crawl_delays r = []
     /\ calculate_crawlability_score (has_robots r) (crawl_delays r)
          (sitemaps r) js_heavy
        = (if js_heavy then 0 else 30)%Z)
  /\ (has_robots r = true ->
        is_Some (robots_txt r)
        /\ (25 <= calculate_crawlability_score (has_robots r) (crawl_delays r)
                    (sitemaps r) js_heavy)%Z).
Proof.
  unfold analyze_robots_txt. intros Ha.
  assert (Hcases : r = Robots_ None [] [] false
                   \/ exists text sm cd, r = Robots_ (Some text) sm cd true).
  { destruct (get_robots H _ w) as [[resp|e] w1].
    - destruct (negb (status_code resp =? 200)%Z).
      + inversion Ha. auto.
      + destruct (rp_read H _ w1) as [[u|e] w2]; [|discriminate].
        destruct (directive_values (txt "sitemap:") _) as [sm|e]; [|discriminate].
        destruct (directive_values (txt "crawl-delay") _) as [cd|e];
          [|discriminate].
        inversion Ha. eauto.
    - destruct e; inversion Ha; auto. }
  destruct Hcases as [->|(text & sm & cd & ->)]; cbn.
  - split; [|discriminate]. intros _. destruct js_heavy; auto.
  - split; [discriminate|]. intros _. split; [eauto|].
    unfold calculate_crawlability_score.
    destruct cd, sm, js_heavy; cbn; lia.
Qed.

Lemma sitemap_values_never_fail_witness :
  exists values,
    directive_values (txt "sitemap:")
      [txt "User-agent: *"; txt "SiteMap: https://bonappetit.com.eg/sitemap.xml"]
    = Done values
    /\ length values = 1%nat.
Proof.
  destruct (sitemap_values_never_fail
              [txt "User-agent: *"; txt "SiteMap: https://bonappetit.com.eg/sitemap.xml"])
    as (values & Hd & Hl & _).
  exists values. split; [exact Hd|]. rewrite Hl. vm_compute. reflexivity.
Defined.

Lemma crawl_delay_values_fail_without_colon_witness :
  directive_values (txt "crawl-delay") [txt "User-agent: *"; txt "Crawl-delay 10"]
  = Failed IndexError.
Proof.
  apply (proj1 (crawl_delay_values_fail_without_colon
                  [txt "User-agent: *"; txt "Crawl-delay 10"])).
  exists (txt "Crawl-delay 10"). split; [right; left|].
  split; [vm_compute; reflexivity|].
  vm_compute. repeat constructor; discriminate.
Defined.

Lemma robots_facts_are_consistent_witness :
  calculate_crawlability_score false [] [] false = 30%Z.
Proof.
  destruct (robots_facts_are_consistent
              (host_with_robots drinks_page 404 []) Report.site_url
              (tt : world (env (host_with_robots drinks_page 404 [])))
              (tt : world (env (host_with_robots drinks_page 404 [])))
              (Robots_ None [] [] false) false) as [H _].
  - reflexivity.
  - destruct (H eq_refl) as (_ & _ & _ & Hs). exact Hs.
Defined.

End RobotsFacts.
(** ** The report *)

Module ReportFacts.
Import Text Segmenter Soup Crawl Analysis Robots Report Menu.
Import CrawlMore RobotsFacts.

Lemma analysed_robots (H : Host) (url : string) (w w' : world (env H))
    (r : robots) :
  analyze_robots_txt H url w = (Done r, w') ->
  r = Robots_ None [] [] false
  \/ exists text sm cd, r = Robots_ (Some text) sm cd true.
Proof.
  unfold analyze_robots_txt. intros Ha.
  destruct (get_robots H _ w) as [[resp|e] w1].
  - destruct (negb (status_code resp =? 200)%Z).
    + inversion Ha. auto.
    + destruct (rp_read H _ w1) as [[u|e] w2]; [|discriminate].
      destruct (directive_values (txt "sitemap:") _) as [sm|e]; [|discriminate].
      destruct (directive_values (txt "crawl-delay") _) as [cd|e]; [|discriminate].
      inversion Ha. eauto.
  - destruct e; inversion Ha; auto.
Qed.

(** What a finished run reports hangs together: every row of the menu has a
    name and a price; the score lies between 0 and 100; Selenium is advised
    exactly when the crawl used the browser, and then the score is at most
    70, while after a plain crawl it is at least 30; and the advice to use
    sitemaps comes only with a score of at least 55, since sitemaps are
    only ever read from a robots file that exists. *)
Theorem finished_report_is_coherent
    (H : Host) (depth : nat) (w w' : world (env H)) (r : report) :
  main H depth w = Finished r w' ->
  (forall x, x ∈ menu_data r -> item_name x <> [] /\ price x <> [])
  /\ (0 <= score r <= 100)%Z
  /\ (crawled_with_selenium r = true
      <-> In "Use Selenium or Playwright for rendering JavaScript-heavy pages."
             (recommendations r))
  /\ (crawled_with_selenium r = true -> (score r <= 70)%Z)
  /\ (crawled_with_selenium r = false -> (30 <= score r)%Z)
  /\ (In "Utilize sitemap URLs to improve crawl efficiency."
         (recommendations r) ->
      (55 <= score r)%Z).
Proof.
  unfold main. intros Hm.
  destruct (analyze_robots_txt H site_url w) as [[rb|e] w1] eqn:Ha;
    [|discriminate].
  destruct (get_page H menu_url _) as [[resp|e] w3]; [|discriminate].
  set (js := is_javascript_heavy (env H) (content resp)) in *.
  destruct (scrape_menu (env H) js depth menu_url w3) as [rows w4|e rows w4]
    eqn:Hc; [|discriminate].
  inversion Hm; subst r w'. cbn [menu_data score recommendations
                                 crawled_with_selenium].
  split.
  { apply (scrape_menu_rows_complete (env H) js depth menu_url w3 w4 rows Hc). }
  apply analysed_robots in Ha as [->|(text & sm & cd & ->)];
    cbn [has_robots crawl_delays sitemaps];
    unfold calculate_crawlability_score, recommend_crawling_tools.
  - destruct js; cbn; (repeat split); try lia; try discriminate; auto;
      intros; repeat match goal with
                     | Hx : _ \/ _ |- _ => destruct Hx
                     | Hx : False |- _ => contradiction
                     end; try discriminate; try lia.
  - destruct js, sm, cd; cbn; (repeat split); try lia; try discriminate; auto;
      intros; repeat match goal with
                     | Hx : _ \/ _ |- _ => destruct Hx
                     | Hx : False |- _ => contradiction
                     end; try discriminate; try lia.
Qed.

Lemma finished_report_is_coherent_witness :
  (0 <= 30 <= 100)%Z.
Proof.
  refine (proj1 (proj2 (finished_report_is_coherent
                   (host_with_robots drinks_page 404 []) 1
                   (tt : world (env (host_with_robots drinks_page 404 [])))
                   (tt : world (env (host_with_robots drinks_page 404 [])))
                   (Report_ [Row (txt "Drinks") (txt "Tea") [] (txt "15 L.E")] 30
                      ["Use Requests + BeautifulSoup for simple static pages.";
                       "Scrapy is recommended for scalable crawling."]
                      false) _))).
  vm_compute. reflexivity.
Defined.

(** A robots file with a crawl-delay line that has no colon ends the run
    before anything is crawled: when the file is fetched and read, [main]
    fails with an [IndexError] and reports nothing. *)
Theorem colonless_crawl_delay_ends_the_run
    (H : Host) (depth : nat) (w w1 w2 : world (env H)) (resp : response)
    (u : unit) (line : str) :
  get_robots H (rstrip_slash site_url +:+ "/robots.txt") w = (Ok resp, w1) ->
  status_code resp = 200%Z ->
  rp_read H (rstrip_slash site_url +:+ "/robots.txt") w1 = (Ok u, w2) ->
  line ∈ splitlines (content resp) ->
  startswith (txt "crawl-delay") (lower line) = true ->
  Forall (fun c => c <> ch ":") line ->
  analyze_robots_txt H site_url w = (Failed IndexError, w2)
  /\ main H depth w = Failed_ IndexError w2.
Proof.
  intros Hg Hst Hr Hin Hp Hc.
  assert (Ha : analyze_robots_txt H site_url w = (Failed IndexError, w2)).
  { unfold analyze_robots_txt. rewrite Hg, Hst. cbn [Z.eqb negb]. rewrite Hr.
    destruct (sitemap_values_done (splitlines (content resp)))
      as (values & ->).
    rewrite (crawl_delay_without_colon_fails _ line Hin Hp Hc).
    reflexivity. }
  split; [exact Ha|]. unfold main. rewrite Ha. reflexivity.
Qed.

Lemma colonless_crawl_delay_ends_the_run_witness :
  main (host_with_robots drinks_page 200
          (txt "User-agent: *" ++ [10%N] ++ txt "Crawl-delay 10")) 5
       (tt : world (env (host_with_robots drinks_page 200
                           (txt "User-agent: *" ++ [10%N] ++ txt "Crawl-delay 10"))))
  = Failed_ IndexError
      (tt : world (env (host_with_robots drinks_page 200
                          (txt "User-agent: *" ++ [10%N] ++ txt "Crawl-delay 10")))).
Proof.
  refine (proj2 (colonless_crawl_delay_ends_the_run
                   (host_with_robots drinks_page 200
                      (txt "User-agent: *" ++ [10%N] ++ txt "Crawl-delay 10")) 5
                   tt tt tt (Response 200
                      (txt "User-agent: *" ++ [10%N] ++ txt "Crawl-delay 10"))
                   tt (txt "Crawl-delay 10") _ _ _ _ _ _)).
  - reflexivity.
  - reflexivity.
  - reflexivity.
  - apply list_elem_of_In. vm_compute. right. left. reflexivity.
  - vm_compute. reflexivity.
  - vm_compute. repeat constructor; discriminate.
Defined.

End ReportFacts.
